(** * Migration scripts of Google-Drive-CLI: a shallow embedding

    The repository holds four Python scripts that split the Go package
    [internal/cli] into sub-packages:

    - [move_and_update.py]  moves files, renames the package clause, adds the
      [base] import and qualifies five helper calls;
    - [fix_packages.py]     rewrites the package clause of the moved files and
      adds the [base] import when missing;
    - [update_refs.py]      qualifies references with regular expressions and
      adds the [cli] import;
    - [fix_cli_imports.py]  [fix_file]: adds the [cli] import, repairs a
      malformed import line and qualifies references by substring replacement.

    Texts are [string]s (the units are taken to be ASCII text), the file tree
    is a [gmap] from paths to contents, and a run of a script is a function in
    a small state-and-exception monad over the tree. The calls of [print]
    are left out.

    The definitions come first: the string primitives of Python, the part
    of [re] the scripts use, the rewrite each script applies to the text of
    a file, the operating-system calls, the scripts as runs, and the units,
    trees and disks used as instances, and the predicates the statements
    are written with. The facts, the claims and further properties of the
    scripts follow. *)

From Stdlib Require Import Ascii Bool Arith Lia.
From Stdlib Require String.
From stdpp Require Import base option list gmap strings.

Local Open Scope bool_scope.
Arguments String.append : simpl nomatch.

(** ** Python string primitives *)

Module Str.

Definition NL : string := String "010"%char EmptyString.
Definition TAB : string := String "009"%char EmptyString.
Definition DQ : string := String "034"%char EmptyString.

(** [s.startswith(p)] *)
Fixpoint startswith (p s : string) : bool :=
  match p with
  | EmptyString => true
  | String a p' =>
      match s with
      | EmptyString => false
      | String b s' => Ascii.eqb a b && startswith p' s'
      end
  end.

(** [s[n:]] *)
Fixpoint slice_from (n : nat) (s : string) : string :=
  match n, s with
  | S k, String _ s' => slice_from k s'
  | _, _ => s
  end.

(** [s.endswith(suf)] *)
Definition endswith (s suf : string) : bool :=
  (String.length suf <=? String.length s) &&
  String.eqb (slice_from (String.length s - String.length suf) s) suf.

(** [old in s] *)
Fixpoint contains (old s : string) : bool :=
  startswith old s ||
  match s with
  | EmptyString => false
  | String _ s' => contains old s'
  end.

(** Number of positions of [s] at which [old] starts. *)
Fixpoint occurrences (old s : string) : nat :=
  match s with
  | EmptyString => 0
  | String _ s' => (if startswith old s then 1 else 0) + occurrences old s'
  end.

(** [s.replace(old, new)] for a non-empty [old]: scan from the left; where
    [old] starts, emit [new] and jump over the occurrence ([skip] counts the
    characters of it still to jump over), otherwise copy one character. *)
Fixpoint replace_from (old new : string) (skip : nat) (s : string) : string :=
  match s with
  | EmptyString => EmptyString
  | String c s' =>
      match skip with
      | S k => replace_from old new k s'
      | O =>
          if startswith old s
          then new +:+ replace_from old new (String.length old - 1) s'
          else String c (replace_from old new 0 s')
      end
  end.

(** [s.replace('', new)]: [new] before every character and at the end. *)
Fixpoint interleave (new s : string) : string :=
  match s with
  | EmptyString => new
  | String c s' => new +:+ String c (interleave new s')
  end.

Definition replace (old new s : string) : string :=
  match old with
  | EmptyString => interleave new s
  | String _ _ => replace_from old new 0 s
  end.

(** No occurrence of [old] in [a +:+ rest] starts inside [a]. *)
Fixpoint nowhere (old a rest : string) : bool :=
  match a with
  | EmptyString => true
  | String _ a' => negb (startswith old (a +:+ rest)) && nowhere old a' rest
  end.

Fixpoint has_char (c : ascii) (s : string) : bool :=
  match s with
  | EmptyString => false
  | String d s' => Ascii.eqb c d || has_char c s'
  end.

(** [x] and [y] agree as far as both reach. *)
Fixpoint agree (x y : string) : bool :=
  match x, y with
  | String a x', String b y' => Ascii.eqb a b && agree x' y'
  | _, _ => true
  end.

(** An occurrence of [x] can start inside [y]. *)
Fixpoint starts_inside (x y : string) : bool :=
  match y with
  | EmptyString => false
  | String _ y' => agree x y || starts_inside x y'
  end.

(** An occurrence of [x] can share characters with a copy of [new]. *)
Definition touch (x new : string) : bool :=
  starts_inside x new || starts_inside new x.

End Str.

(** ** The fragment of Python's [re] the scripts use *)

Module Re.

Inductive charclass :=
| AnyButNewline              (* .      *)
| WordChar                   (* \w     *)
| NotChar (c : ascii).       (* [^c]   *)

Inductive item :=
| Lit (c : ascii)            (* a literal (possibly escaped) character *)
| Cls (k : charclass)        (* one character of a class *)
| Plus (grp : bool) (k : charclass)
                             (* k+, greedy; (k+) as group 1 when [grp] *)
| Bol                        (* ^  *)
| Eol                        (* $  *)
| WordBoundary.              (* \b *)

Definition pattern := list item.

Fixpoint lit (s : string) : pattern :=
  match s with
  | EmptyString => []
  | String c s' => Lit c :: lit s'
  end.


Definition in_range (lo hi c : ascii) : bool :=
  (nat_of_ascii lo <=? nat_of_ascii c) && (nat_of_ascii c <=? nat_of_ascii hi).

(** [\w] on ASCII text: [[a-zA-Z0-9_]]. *)
Definition is_word (c : ascii) : bool :=
  in_range "a" "z" c || in_range "A" "Z" c || in_range "0" "9" c ||
  Ascii.eqb c "_".

Definition in_class (k : charclass) (c : ascii) : bool :=
  match k with
  | AnyButNewline => negb (Ascii.eqb c "010")
  | WordChar => is_word c
  | NotChar x => negb (Ascii.eqb c x)
  end.

Definition is_word_opt (o : option ascii) : bool :=
  match o with Some c => is_word c | None => false end.

Definition head (s : string) : option ascii :=
  match s with EmptyString => None | String c _ => Some c end.

(** [^]: start of the text, and with MULTILINE also just after a newline. *)
Definition at_bol (multiline : bool) (prev : option ascii) : bool :=
  match prev with
  | None => true
  | Some c => multiline && Ascii.eqb c "010"
  end.

(** [$]: end of the text or just before the newline that ends it; with
    MULTILINE before any newline. *)
Definition at_eol (multiline : bool) (s : string) : bool :=
  match s with
  | EmptyString => true
  | String c s' =>
      Ascii.eqb c "010" &&
      (multiline || match s' with EmptyString => true | _ => false end)
  end.

(** Match [p] at the current position. [prev] is the character before the
    position, [n] the number of characters consumed so far and [g] group 1.
    The result is the length of the match and group 1. *)
Fixpoint match_here (ml : bool) (p : pattern) (prev : option ascii)
    (s : string) (n : nat) (g : option string) {struct p}
  : option (nat * option string) :=
  match p with
  | [] => Some (n, g)
  | Lit c :: p' =>
      match s with
      | String d s' =>
          if Ascii.eqb c d then match_here ml p' (Some d) s' (S n) g else None
      | EmptyString => None
      end
  | Cls k :: p' =>
      match s with
      | String d s' =>
          if in_class k d then match_here ml p' (Some d) s' (S n) g else None
      | EmptyString => None
      end
  | Bol :: p' => if at_bol ml prev then match_here ml p' prev s n g else None
  | Eol :: p' => if at_eol ml s then match_here ml p' prev s n g else None
  | WordBoundary :: p' =>
      if xorb (is_word_opt prev) (is_word_opt (head s))
      then match_here ml p' prev s n g else None
  | Plus grp k :: p' =>
      (fix plus (s : string) (n : nat) (acc : string) {struct s} :=
         match s with
         | String d s' =>
             if in_class k d then
               let acc' := acc +:+ String d EmptyString in
               match plus s' (S n) acc' with
               | Some r => Some r
               | None =>
                   match_here ml p' (Some d) s' (S n)
                     (if grp then Some acc' else g)
               end
             else None
         | EmptyString => None
         end) s n EmptyString
  end.

(** Replacement templates: text and references to group 1 ([\1]). *)
Inductive piece := Text (s : string) | Group1.

Definition template := list piece.

Fixpoint expand (t : template) (g : option string) : string :=
  match t with
  | [] => EmptyString
  | Text s :: t' => s +:+ expand t' g
  | Group1 :: t' => default EmptyString g +:+ expand t' g
  end.

(** [re.sub(p, t, s)]: leftmost matches, not overlapping, all replaced. *)
Fixpoint sub_from (ml : bool) (p : pattern) (t : template) (skip : nat)
    (prev : option ascii) (s : string) : string :=
  match s with
  | EmptyString =>
      match skip, match_here ml p prev s 0 None with
      | O, Some (_, g) => expand t g
      | _, _ => EmptyString
      end
  | String c s' =>
      match skip with
      | S k => sub_from ml p t k (Some c) s'
      | O =>
          match match_here ml p prev s 0 None with
          | Some (S k, g) => expand t g +:+ sub_from ml p t k (Some c) s'
          | Some (O, g) =>
              expand t g +:+ String c (sub_from ml p t 0 (Some c) s')
          | None => String c (sub_from ml p t 0 (Some c) s')
          end
      end
  end.

Definition sub (ml : bool) (p : pattern) (t : template) (s : string) : string :=
  sub_from ml p t 0 None s.

(** Whether [p] matches somewhere from the current position on. *)
Fixpoint found_from (ml : bool) (p : pattern) (prev : option ascii)
    (s : string) : bool :=
  match match_here ml p prev s 0 None with
  | Some _ => true
  | None =>
      match s with
      | EmptyString => false
      | String c s' => found_from ml p (Some c) s'
      end
  end.

(** [re.search(p, s) is not None] *)
Definition search (ml : bool) (p : pattern) (s : string) : bool :=
  found_from ml p None s.

End Re.

Import Str.

(** ** fix_cli_imports.py *)

Module FixCliImports.

Definition packages : list string :=
  [ "internal/cli/drive"; "internal/cli/workspace"; "internal/cli/admin";
    "internal/cli/chat"; "internal/cli/gmail"; "internal/cli/people";
    "internal/cli/calendar"; "internal/cli/activity"; "internal/cli/sync";
    "internal/cli/system" ].

(** The import line [cli Qgithub.com/dl-alexandre/gdrv/internal/cliQ], where
    Q stands for the double quote. *)
Definition cli_import : string :=
  "cli " +:+ DQ +:+ "github.com/dl-alexandre/gdrv/internal/cli" +:+ DQ.

Definition import_open : string := "import (".

(** A newline, a tab and the import line. *)
Definition cli_line : string := NL +:+ TAB +:+ cli_import.

(** The guarded insertion of the import after every [import (]. *)
Definition add_cli_import (content : string) : string :=
  if negb (contains cli_import content)
  then Re.sub false (Re.lit import_open) [Re.Text (import_open +:+ cli_line)]
         content
  else content.

(** [tcli Qgithub.com/dl-alexandre/gdrv/internal/cliQ]: the dot of the
    pattern is not escaped and stands for any character but a newline. *)
Definition malformed_import : Re.pattern :=
  Re.lit ("tcli " +:+ DQ +:+ "github") ++ [Re.Cls Re.AnyButNewline] ++
  Re.lit ("com/dl-alexandre/gdrv/internal/cli" +:+ DQ).

Definition malformed_line : Re.pattern := Re.lit (NL +:+ "tcli ").

Definition fix_malformed (content : string) : string :=
  let content :=
    Re.sub false malformed_import [Re.Text (TAB +:+ cli_import)] content in
  Re.sub false malformed_line [Re.Text (NL +:+ TAB +:+ "cli ")] content.

(** [func \(cmd \*(\w+)\) Run\(globals \*Globals\)] *)
Definition run_signature : Re.pattern :=
  Re.lit "func (cmd *" ++ [Re.Plus true Re.WordChar] ++
  Re.lit ") Run(globals *Globals)".

Definition run_signature_cli : Re.template :=
  [Re.Text "func (cmd *"; Re.Group1; Re.Text ") Run(globals *cli.Globals)"].

Definition fix_signatures (content : string) : string :=
  Re.sub false run_signature run_signature_cli content.

Definition replacements : list (string * string) :=
  [ ("NewOutputWriter(", "cli.NewOutputWriter(");
    ("ResolveFileID(", "cli.ResolveFileID(");
    ("GetGlobalFlags()", "cli.GetGlobalFlags()");
    ("GetLogger()", "cli.GetLogger()");
    ("GetPathResolver(", "cli.GetPathResolver(");
    ("GetResolveOptions(", "cli.GetResolveOptions(");
    ("handleCLIError(", "cli.HandleCLIError(");
    ("convertDriveFile(", "cli.ConvertDriveFile(");
    ("isPath(", "cli.IsPath(");
    ("getConfigDir()", "cli.GetConfigDir()");
    ("resolveTimeRange(", "cli.ResolveTimeRange(");
    ("splitCSV(", "cli.SplitCSV(");
    ("scopesForPreset(", "cli.ScopesForPreset(");
    ("resolveAuthScopes(", "cli.ResolveAuthScopes(");
    ("validateAdminScopesRequireImpersonation(",
     "cli.ValidateAdminScopesRequireImpersonation(");
    ("buildOAuthClientError(", "cli.BuildOAuthClientError(");
    ("oauthClientSource", "cli.OAuthClientSource");
    ("oauthClientSourceFlags", "cli.OAuthClientSourceFlags");
    ("oauthClientSourceEnv", "cli.OAuthClientSourceEnv");
    ("oauthClientSourceConfig", "cli.OAuthClientSourceConfig");
    ("oauthClientSourceBundled", "cli.OAuthClientSourceBundled");
    ("isTruthyEnv(", "cli.IsTruthyEnv(");
    ("buildAuthFlowError(", "cli.BuildAuthFlowError(");
    ("oauthClientSecretHint(", "cli.OAuthClientSecretHint(");
    ("openBrowser(", "cli.OpenBrowser(") ].

(** [for old, new in rs: content = content.replace(old, new)] *)
Definition apply_replacements (rs : list (string * string)) (content : string)
  : string :=
  fold_left (fun content r => replace r.1 r.2 content) rs content.

(** What [fix_file] writes back for a file it does not skip. *)
Definition rewrite (content : string) : string :=
  apply_replacements replacements
    (fix_signatures (fix_malformed (add_cli_import content))).

(** Nothing for [rewrite] to do: the import is there or has no place to go,
    no malformed import, no unqualified signature, no searched string. *)
Definition settled (content : string) : bool :=
  (contains cli_import content || negb (contains import_open content)) &&
  negb (Re.search false malformed_import content) &&
  negb (Re.search false malformed_line content) &&
  negb (Re.search false run_signature content) &&
  forallb (fun r => negb (contains r.1 content)) replacements.






(** The rules whose replacement can hold or complete the searched string
    again. *)
Definition recurring : list (string * string) :=
  filter (fun r => touch r.1 r.2 = true) replacements.



End FixCliImports.

(** ** update_refs.py *)

Module UpdateRefs.

Definition packages : list string :=
  [ "drive"; "workspace"; "admin"; "chat"; "gmail"; "people"; "calendar";
    "activity"; "sync"; "system" ].

(** [\bname] *)
Definition call (name : string) : Re.pattern := Re.WordBoundary :: Re.lit name.

(** [\bname\b] *)
Definition word (name : string) : Re.pattern :=
  Re.WordBoundary :: Re.lit name ++ [Re.WordBoundary].

Definition replacements : list (Re.pattern * string) :=
  [ (call "NewOutputWriter(", "base.NewOutputWriter(");
    (call "handleCLIError(", "base.HandleCLIError(");
    (call "convertDriveFile(", "base.ConvertDriveFile(");
    (call "truncate(", "base.Truncate(");
    (call "formatSize(", "base.FormatSize(");
    (call "isPath(", "cli.IsPath(");
    (call "getConfigDir()", "cli.GetConfigDir()");
    (call "resolveTimeRange(", "cli.ResolveTimeRange(");
    (call "splitCSV(", "cli.SplitCSV(");
    (call "scopesForPreset(", "cli.ScopesForPreset(");
    (call "resolveAuthScopes(", "cli.ResolveAuthScopes(");
    (call "validateAdminScopesRequireImpersonation(",
     "cli.ValidateAdminScopesRequireImpersonation(");
    (call "buildOAuthClientError(", "cli.BuildOAuthClientError(");
    (word "oauthClientSource", "cli.OAuthClientSource");
    (word "oauthClientSourceFlags", "cli.OAuthClientSourceFlags");
    (word "oauthClientSourceEnv", "cli.OAuthClientSourceEnv");
    (word "oauthClientSourceConfig", "cli.OAuthClientSourceConfig");
    (word "oauthClientSourceBundled", "cli.OAuthClientSourceBundled");
    (call "isTruthyEnv(", "cli.IsTruthyEnv(");
    (call "buildAuthFlowError(", "cli.BuildAuthFlowError(");
    (call "oauthClientSecretHint(", "cli.OAuthClientSecretHint(");
    (call "openBrowser(", "cli.OpenBrowser(") ].

(** [for pattern, replacement in rs:
       content = re.sub(pattern, replacement, content)] *)
Definition apply_replacements (rs : list (Re.pattern * string))
    (content : string) : string :=
  fold_left (fun content r => Re.sub false r.1 [Re.Text r.2] content) rs
    content.

Definition fix_signatures (content : string) : string :=
  Re.sub false FixCliImports.run_signature FixCliImports.run_signature_cli
    content.

(** [Qgithub.com/dl-alexandre/gdrv/internal/cliQ], quotes included *)
Definition cli_path : string :=
  DQ +:+ "github.com/dl-alexandre/gdrv/internal/cli" +:+ DQ.

Definition add_cli_import (content : string) : string :=
  if contains "cli.Globals" content || contains "cli." content then
    if negb (contains cli_path content) then
      if contains "import (" content then
        replace "import (" ("import (" +:+ NL +:+ TAB +:+ "cli " +:+ cli_path)
          content
      else content
    else content
  else content.

Definition rewrite (content : string) : string :=
  add_cli_import (fix_signatures (apply_replacements replacements content)).

Definition settled (content : string) : bool :=
  forallb (fun r => negb (Re.search false r.1 content)) replacements &&
  negb (Re.search false FixCliImports.run_signature content) &&
  (negb (contains "cli.Globals" content || contains "cli." content) ||
   contains cli_path content || negb (contains "import (" content)).

End UpdateRefs.

(** ** fix_packages.py *)

Module FixPackages.

Definition packages : list (string * string) :=
  [ ("drive", "internal/cli/drive");
    ("workspace", "internal/cli/workspace");
    ("admin", "internal/cli/admin");
    ("chat", "internal/cli/chat");
    ("gmail", "internal/cli/gmail");
    ("people", "internal/cli/people");
    ("calendar", "internal/cli/calendar");
    ("activity", "internal/cli/activity");
    ("sync", "internal/cli/sync");
    ("system", "internal/cli/system") ].

(** [^package \w+], compiled without flags *)
Definition package_clause : Re.pattern :=
  Re.Bol :: Re.lit "package " ++ [Re.Plus false Re.WordChar].

Definition fix_package (pkg_name content : string) : string :=
  Re.sub false package_clause [Re.Text ("package " +:+ pkg_name)] content.

Definition base_path : string :=
  "github.com/dl-alexandre/gdrv/internal/cli/base".

(** [import (], a newline, a tab and the quoted [base] path *)
Definition import_open_base : string :=
  "import (" +:+ NL +:+ TAB +:+ DQ +:+ base_path +:+ DQ.

(** [^import Q([^Q]+)Q] *)
Definition single_import : Re.pattern :=
  Re.Bol :: Re.lit ("import " +:+ DQ) ++ [Re.Plus true (Re.NotChar "034")] ++
  Re.lit DQ.

(** [import (\n\tQ...baseQ\n\tQ\1Q\n)]: in the raw template [re.sub] reads
    [\n] and [\t] as newline and tab. *)
Definition import_block : Re.template :=
  [ Re.Text (import_open_base +:+ NL +:+ TAB +:+ DQ); Re.Group1;
    Re.Text (DQ +:+ NL +:+ ")") ].

Definition add_base_import (content : string) : string :=
  if negb (contains base_path content) then
    if contains "import (" content
    then replace "import (" import_open_base content
    else Re.sub true single_import import_block content
  else content.

Definition rewrite (pkg_name content : string) : string :=
  add_base_import (fix_package pkg_name content).

End FixPackages.

(** ** move_and_update.py *)

Module MoveAndUpdate.

(** The dict [file_mapping], in its insertion order. *)
Definition file_mapping : list (string * string) :=
  [ ("files.go", "drive"); ("folders.go", "drive"); ("drives.go", "drive");
    ("permissions.go", "drive"); ("changes.go", "drive");
    ("labels.go", "drive");
    ("sheets.go", "workspace"); ("docs.go", "workspace");
    ("slides.go", "workspace"); ("forms.go", "workspace");
    ("appscript.go", "workspace");
    ("admin.go", "admin"); ("iamadmin.go", "admin"); ("groups.go", "admin");
    ("chat.go", "chat"); ("gmail.go", "gmail"); ("people.go", "people");
    ("calendar.go", "calendar"); ("tasks.go", "calendar");
    ("meet.go", "calendar"); ("activity.go", "activity"); ("sync.go", "sync");
    ("auth.go", "system"); ("config.go", "system"); ("about.go", "system");
    ("completion.go", "system"); ("ai.go", "system");
    ("cloudlogging.go", "system"); ("monitoring.go", "system");
    ("sheets_test.go", "workspace"); ("docs_test.go", "workspace");
    ("slides_test.go", "workspace"); ("admin_test.go", "admin");
    ("auth_error_test.go", "system"); ("parse_test.go", "system");
    ("config_parse_bool_test.go", "system") ].

Definition cli_dir : string := "internal/cli".

(** [^package cli$] with MULTILINE *)
Definition package_cli : Re.pattern :=
  Re.Bol :: Re.lit "package cli" ++ [Re.Eol].

Definition set_package (pkg content : string) : string :=
  Re.sub true package_cli [Re.Text ("package " +:+ pkg)] content.

(** [^import Q([^Q]+)Q$] with MULTILINE *)
Definition single_import : Re.pattern :=
  FixPackages.single_import ++ [Re.Eol].

(** The insertion of the [base] import: not guarded by a test for its
    presence. *)
Definition add_base_import (content : string) : string :=
  if contains "import (" content
  then replace "import (" FixPackages.import_open_base content
  else Re.sub true single_import FixPackages.import_block content.

Definition replacements : list (string * string) :=
  [ ("NewOutputWriter(", "base.NewOutputWriter(");
    ("handleCLIError(", "base.HandleCLIError(");
    ("convertDriveFile(", "base.ConvertDriveFile(");
    ("truncate(", "base.Truncate(");
    ("formatSize(", "base.FormatSize(") ].

Definition rewrite (pkg content : string) : string :=
  FixCliImports.apply_replacements replacements
    (add_base_import (set_package pkg content)).

End MoveAndUpdate.

(** ** The file tree and the operating-system calls of the scripts *)

Module Os.

(** The regular files of the tree, by path. Directories are implicit: a
    path is a directory when some file lies below it. *)
Abbreviation tree := (gmap string string).

Inductive exn :=
| FileNotFoundError
| FileExistsError
| IsADirectoryError
| NotADirectoryError
| OSError.

Inductive result (A : Type) :=
| Ok (a : A)
| Raise (e : exn).
Arguments Ok {A} a.
Arguments Raise {A} e.

(** What a [with open(path, 'w') as f: f.write(content)] leaves behind:
    either it returns and the file holds [kept] (the content itself on a
    faithful disk), or it raises, with the file untouched ([None], the open
    failed) or holding a partial text. *)
Inductive write_result :=
| Stored (kept : string)
| WriteError (left : option string).

Definition disk := string -> string -> write_result.

Definition faithful : disk := fun _ content => Stored content.

(** A script run: a state transformer over the tree that may raise; the
    tree at the time of the exception is what the aborted script leaves. *)
Definition M (A : Type) : Type := tree -> result A * tree.

Definition ret {A} (a : A) : M A := fun t => (Ok a, t).

Definition bind {A B} (m : M A) (k : A -> M B) : M B :=
  fun t =>
    match m t with
    | (Ok a, t') => k a t'
    | (Raise e, t') => (Raise e, t')
    end.

Declare Scope run_scope.
Delimit Scope run_scope with run.
Notation "x <~ m ; k" := (bind m (fun x => k))
  (at level 20, m at level 100, k at level 200, only parsing) : run_scope.
Notation "m ;; k" := (bind m (fun _ => k))
  (at level 100, k at level 200, right associativity, only parsing) : run_scope.
Local Open Scope run_scope.

(** [for x in xs: body(x)] *)
Fixpoint for_each {A} (xs : list A) (body : A -> M unit) : M unit :=
  match xs with
  | [] => ret ()
  | x :: xs' => body x ;; for_each xs' body
  end.

Definition paths (t : tree) : list string := (map_to_list t).*1.

Definition is_dir (t : tree) (p : string) : bool :=
  existsb (startswith (p +:+ "/")) (paths t).

(** [os.path.join(a, b)] *)
Definition join (a b : string) : string :=
  if startswith "/" b then b
  else if String.eqb a EmptyString || endswith a "/" then a +:+ b
  else a +:+ "/" +:+ b.

Definition exists_in (t : tree) (p : string) : bool :=
  bool_decide (is_Some (t !! p)) || is_dir t p.

(** [os.path.exists(p)] *)
Definition path_exists (p : string) : M bool :=
  fun t => (Ok (exists_in t p), t).

(** No regular file has files below it. *)
Definition well_formed (t : tree) : bool :=
  forallb (fun p => negb (is_dir t p)) (paths t).

(** [with open(p, 'r') as f: f.read()] *)
Definition read_file (p : string) : M string :=
  fun t =>
    match t !! p with
    | Some content => (Ok content, t)
    | None =>
        (Raise (if is_dir t p then IsADirectoryError else FileNotFoundError), t)
    end.

(** [with open(p, 'w') as f: f.write(content)]. At every call of the
    scripts the directory of [p] exists. *)
Definition write_file (d : disk) (p content : string) : M unit :=
  fun t =>
    if is_dir t p then (Raise IsADirectoryError, t)
    else
      match d p content with
      | Stored kept => (Ok (), <[p := kept]> t)
      | WriteError None => (Raise OSError, t)
      | WriteError (Some partial) => (Raise OSError, <[p := partial]> t)
      end.

(** [os.remove(p)] *)
Definition remove (p : string) : M unit :=
  fun t =>
    match t !! p with
    | Some _ => (Ok (), delete p t)
    | None =>
        (Raise (if is_dir t p then IsADirectoryError else FileNotFoundError), t)
    end.

(** [os.makedirs(p, exist_ok=True)]: with implicit directories nothing is
    recorded; it raises when a regular file has that path. *)
Definition makedirs (p : string) : M unit :=
  fun t =>
    match t !! p with
    | Some _ => (Raise FileExistsError, t)
    | None => (Ok (), t)
    end.

(** The first component of a relative path. *)
Fixpoint first_component (s : string) : string :=
  match s with
  | EmptyString => EmptyString
  | String c s' =>
      if Ascii.eqb c "/" then EmptyString else String c (first_component s')
  end.

Definition entries (t : tree) (p : string) : list string :=
  let below := p +:+ "/" in
  remove_dups
    (omap (fun k =>
             if startswith below k
             then Some (first_component (slice_from (String.length below) k))
             else None)
          (paths t)).

(** [os.listdir(p)]: the names of the files and directories in [p], in the
    order of the map (the order of [os.listdir] is not specified). *)
Definition listdir (p : string) : M (list string) :=
  fun t =>
    match t !! p with
    | Some _ => (Raise NotADirectoryError, t)
    | None =>
        if is_dir t p then (Ok (entries t p), t)
        else (Raise FileNotFoundError, t)
    end.

(** The tree a run leaves, whether it finished or raised. *)
Definition final {A} (m : M A) (t : tree) : tree := (m t).2.

Definition finished {A} (m : M A) (t : tree) : bool :=
  match (m t).1 with Ok _ => true | Raise _ => false end.

(** The run leaves what is at [p] as it was. *)
Definition keeps {A} (p : string) (m : M A) : Prop :=
  forall t, (m t).2 !! p = t !! p.

End Os.

(** ** The scripts as runs over the tree *)

Module Script.
Import Os.
Local Open Scope run_scope.

(** fix_cli_imports.py, [fix_file] *)
Definition fix_file (d : disk) (filepath : string) : M unit :=
  content <~ read_file filepath;
  if negb (endswith filepath ".go") || endswith filepath "_test.go"
  then ret ()
  else write_file d filepath (FixCliImports.rewrite content).

(** fix_cli_imports.py, the walk over the packages *)
Definition fix_cli_imports (d : disk) : M unit :=
  for_each FixCliImports.packages (fun pkg =>
    there <~ path_exists pkg;
    if there then
      names <~ listdir pkg;
      for_each names (fun filename =>
        if endswith filename ".go" && negb (endswith filename "_test.go")
        then fix_file d (join pkg filename)
        else ret ())
    else ret ()).

(** The body shared by the walks of fix_packages.py and update_refs.py. *)
Definition rewrite_go_files (d : disk) (pkg_path : string)
    (f : string -> string) : M unit :=
  there <~ path_exists pkg_path;
  if negb there then ret ()
  else
    names <~ listdir pkg_path;
    for_each names (fun filename =>
      if negb (endswith filename ".go") then ret ()
      else
        let filepath := join pkg_path filename in
        content <~ read_file filepath;
        write_file d filepath (f content)).

(** fix_packages.py *)
Definition fix_packages (d : disk) : M unit :=
  for_each FixPackages.packages (fun '(pkg_name, pkg_path) =>
    rewrite_go_files d pkg_path (FixPackages.rewrite pkg_name)).

(** update_refs.py *)
Definition update_refs (d : disk) : M unit :=
  for_each UpdateRefs.packages (fun pkg =>
    rewrite_go_files d ("internal/cli/" +:+ pkg) UpdateRefs.rewrite).

Definition src_of (filename : string) : string :=
  join MoveAndUpdate.cli_dir filename.

Definition dst_of (filename pkg : string) : string :=
  join (join MoveAndUpdate.cli_dir pkg) filename.

(** move_and_update.py, one turn of the loop over [file_mapping] *)
Definition move_one (d : disk) (entry : string * string) : M unit :=
  let '(filename, pkg) := entry in
  let src := src_of filename in
  let dst_dir := join MoveAndUpdate.cli_dir pkg in
  let dst := join dst_dir filename in
  there <~ path_exists src;
  if there then
    makedirs dst_dir;;
    content <~ read_file src;
    write_file d dst (MoveAndUpdate.rewrite pkg content);;
    remove src
  else ret ().

(** move_and_update.py *)
Definition move_and_update (d : disk) : M unit :=
  for_each MoveAndUpdate.file_mapping (move_one d).

(** Every file of [t] was in [t0] or is a destination of [file_mapping]. *)
Definition grown (t0 t : tree) : Prop :=
  forall k, is_Some (t !! k) ->
    is_Some (t0 !! k) \/
    exists e, e ∈ MoveAndUpdate.file_mapping /\ k = dst_of e.1 e.2.

(** Two entries bind one searched string to different replacements. *)
Definition conflicting (rs : list (string * string)) : bool :=
  existsb (fun r =>
    existsb (fun r' => String.eqb r.1 r'.1 && negb (String.eqb r.2 r'.2)) rs)
    rs.

(** [p] is the source or the destination of an entry of [file_mapping]
    whose source exists in [t]. *)
Definition affected (t : tree) (p : string) : bool :=
  existsb (fun e =>
             exists_in t (src_of e.1) &&
             (String.eqb p (src_of e.1) || String.eqb p (dst_of e.1 e.2)))
          MoveAndUpdate.file_mapping.

End Script.

(** ** Units, trees and disks used as instances *)

Module Sample.
Import Os.

(** The lines, each ended by a newline. *)
Fixpoint lines (ls : list string) : string :=
  match ls with
  | [] => EmptyString
  | l :: ls' => l +:+ NL +:+ lines ls'
  end.

(** A command of the package before the split. *)
Definition list_cmd : string :=
  lines [ "package cli";
          EmptyString;
          "import (";
          TAB +:+ DQ +:+ "fmt" +:+ DQ;
          ")";
          EmptyString;
          "func (cmd *ListCmd) Run(globals *Globals) error {";
          TAB +:+ "w := NewOutputWriter(globals)";
          TAB +:+ "return handleCLIError(w, nil)";
          "}" ].

(** A command that only uses helpers renamed by their rule. *)
Definition error_cmd : string :=
  lines [ "package drive";
          EmptyString;
          "import (";
          TAB +:+ DQ +:+ "fmt" +:+ DQ;
          ")";
          EmptyString;
          "func (cmd *ErrCmd) Run(globals *Globals) error {";
          TAB +:+ "return handleCLIError(nil, isPath(cmd.Name))";
          "}" ].

(** A unit whose package clause follows a comment. *)
Definition licensed : string :=
  lines [ "// Copyright the gdrv authors.";
          "package cli";
          EmptyString;
          "import " +:+ DQ +:+ "fmt" +:+ DQ ].



(** A unit that already imports the [base] package. *)
Definition with_base : string :=
  lines [ "package cli";
          EmptyString;
          "import (";
          TAB +:+ DQ +:+ FixPackages.base_path +:+ DQ;
          ")" ].


Definition in_cli : tree := {[ "internal/cli/files.go" := list_cmd ]}.


Definition licensed_in_drive : tree :=
  {[ "internal/cli/drive/files.go" := licensed ]}.

(** The destination of [files.go] is taken by another unit. *)
Definition taken : tree :=
  <[ "internal/cli/files.go" := list_cmd ]>
    {[ "internal/cli/drive/files.go" := error_cmd ]}.

(** Beside the two, a file of [internal/cli] that [file_mapping] does not
    name. *)
Definition with_root : tree := <[ "internal/cli/root.go" := list_cmd ]> taken.

Definition with_test : tree :=
  <[ "internal/cli/drive/files.go" := list_cmd ]>
    {[ "internal/cli/drive/files_test.go" := list_cmd ]}.


(** A disk on which every write fails after [n] characters. *)
Definition failing (n : nat) : disk :=
  fun _ content => WriteError (Some (String.substring 0 n content)).

End Sample.

(** ** Names, lines and the course of a match *)

Module Text.

(** The last character. *)
Fixpoint last (s : string) : option ascii :=
  match s with
  | EmptyString => None
  | String c EmptyString => Some c
  | String _ s' => last s'
  end.

(** Every character of the text passes the test. *)
Fixpoint every (f : ascii -> bool) (s : string) : bool :=
  match s with
  | EmptyString => true
  | String c s' => f c && every f s'
  end.

(** A name as [\w+] takes it: word characters, at least one. *)
Definition is_name (s : string) : bool :=
  negb (String.eqb s EmptyString) && every Re.is_word s.

(** The text does not go on with a character of the class. *)
Definition stops (k : Re.charclass) (s : string) : bool :=
  match s with
  | EmptyString => true
  | String c _ => negb (Re.in_class k c)
  end.

(** The character before the position once [x] is consumed. *)
Definition after (prev : option ascii) (x : string) : option ascii :=
  match last x with
  | Some c => Some c
  | None => prev
  end.

(** The loop of [k+] in [Re.match_here], with what follows it in the
    pattern. *)
Definition plus_from (ml : bool) (p' : Re.pattern) (grp : bool)
    (k : Re.charclass) (g : option string)
  : string -> nat -> string -> option (nat * option string) :=
  fix plus (s : string) (n : nat) (acc : string) {struct s} :=
    match s with
    | String d s' =>
        if Re.in_class k d then
          let acc' := acc +:+ String d EmptyString in
          match plus s' (S n) acc' with
          | Some r => Some r
          | None =>
              Re.match_here ml p' (Some d) s' (S n)
                (if grp then Some acc' else g)
          end
        else None
    | EmptyString => None
    end.

(** The text begins with a package clause: [package], a blank and a word
    character. *)
Definition opening (x : string) : bool :=
  startswith "package " x && negb (stops Re.WordChar (slice_from 8 x)).

(** The literal text a match of the pattern begins with. *)
Fixpoint leading (p : Re.pattern) : string :=
  match p with
  | Re.Lit c :: p' => String c (leading p')
  | Re.Bol :: p' | Re.Eol :: p' | Re.WordBoundary :: p' => leading p'
  | _ => EmptyString
  end.

End Text.

(** ** The files a walk over package directories visits *)

Module Walk.
Import Os.

(** What follows [dir/] in [p]. *)
Definition below (dir p : string) : string :=
  slice_from (String.length (dir +:+ "/")) p.

(** [p] is [dir/name] for a name without [/] that passes [ok]. *)
Definition in_dir (ok : string -> bool) (dir p : string) : bool :=
  startswith (dir +:+ "/") p && negb (has_char "/" (below dir p)) &&
  ok (below dir p).

(** The test of the walks of fix_packages.py and update_refs.py *)
Definition go_file (name : string) : bool := endswith name ".go".

(** The test of the walk of fix_cli_imports.py *)
Definition go_source (name : string) : bool :=
  endswith name ".go" && negb (endswith name "_test.go").

Definition visited (ok : string -> bool) (dirs : list string) (p : string)
  : bool :=
  existsb (fun dir => in_dir ok dir p) dirs.

(** The directories of update_refs.py *)
Definition update_refs_dirs : list string :=
  map (String.append "internal/cli/") UpdateRefs.packages.

(** No directory of the walk is a regular file, and no entry of one that
    passes [ok] is a directory. *)
Definition ready (ok : string -> bool) (dirs : list string) (t : tree) : bool :=
  forallb (fun dir =>
    negb (bool_decide (is_Some (t !! dir))) &&
    forallb (fun name => negb (ok name && is_dir t (dir +:+ "/" +:+ name)))
      (entries t dir))
    dirs.

(** The same for one directory, as a proposition. *)
Definition ready_here (ok : string -> bool) (dir : string) (t : tree) : Prop :=
  t !! dir = None /\
  forall name, name ∈ entries t dir -> ok name = true ->
    is_dir t (dir +:+ "/" +:+ name) = false.

(** The run neither creates nor deletes a file. *)
Definition same_files {A} (m : M A) : Prop :=
  forall t k, is_Some ((m t).2 !! k) <-> is_Some (t !! k).

End Walk.

(** ** The turns of move_and_update.py *)

Module Moves.
Import Os Script.

(** The turn of [e] runs through on [t]: where the source exists it is a
    regular file, the directory of the destination is not a regular file
    and the destination is not a directory. *)
Definition can_move (t : tree) (e : string * string) : bool :=
  negb (exists_in t (src_of e.1)) ||
  (bool_decide (is_Some (t !! src_of e.1)) &&
   negb (bool_decide (is_Some (t !! join MoveAndUpdate.cli_dir e.2))) &&
   negb (is_dir t (dst_of e.1 e.2))).

Definition movable (t : tree) : bool :=
  forallb (can_move t) MoveAndUpdate.file_mapping.

Definition same_entry (e e' : string * string) : bool :=
  String.eqb e.1 e'.1 && String.eqb e.2 e'.2.

(** The paths of the turn of [e'] are not those of the turn of [e], and
    do not lie above them. *)
Definition apart (e e' : string * string) : bool :=
  let s := src_of e.1 in
  let dd := dst_of e.1 e.2 in
  let s' := src_of e'.1 in
  let dd' := dst_of e'.1 e'.2 in
  negb (String.eqb s' s) && negb (String.eqb s' dd) &&
  negb (String.eqb dd' dd) && negb (String.eqb dd' s) &&
  negb (String.eqb (join MoveAndUpdate.cli_dir e'.2) dd) &&
  negb (startswith (s' +:+ "/") dd) && negb (startswith (s' +:+ "/") s) &&
  negb (startswith (dd' +:+ "/") dd).

End Moves.

(** * Facts about the string primitives *)

Section StrFacts.

Implicit Types (s p a b old new x : string) (c : ascii).

Lemma app_cons c a b : String c a +:+ b = String c (a +:+ b).
Proof. reflexivity. Qed.

Lemma app_empty_r s : s +:+ EmptyString = s.
Proof.
  induction s as [|c s IH]; [reflexivity|]. rewrite app_cons, IH. reflexivity.
Qed.

Lemma app_assoc a b x : (a +:+ b) +:+ x = a +:+ (b +:+ x).
Proof.
  induction a as [|c a IH]; [reflexivity|].
  rewrite !app_cons, IH. reflexivity.
Qed.

Lemma length_app a b :
  String.length (a +:+ b) = String.length a + String.length b.
Proof.
  induction a as [|c a IH]; simpl; [reflexivity|]. rewrite IH. reflexivity.
Qed.

Lemma startswith_app p s : startswith p (p +:+ s) = true.
Proof.
  induction p as [|c p IH]; [reflexivity|].
  rewrite app_cons. simpl. rewrite Ascii.eqb_refl, IH. reflexivity.
Qed.

Lemma startswith_split p s :
  startswith p s = true → s = p +:+ slice_from (String.length p) s.
Proof.
  revert s. induction p as [|c p IH]; intros s H; [reflexivity|].
  destruct s as [|d s]; [discriminate|]. simpl in H.
  apply andb_true_iff in H as [Hc Hp]. apply Ascii.eqb_eq in Hc. subst d.
  rewrite app_cons. simpl. f_equal. apply IH, Hp.
Qed.

Lemma slice_from_app x s : slice_from (String.length x) (x +:+ s) = s.
Proof.
  induction x as [|c x IH]; [destruct s; reflexivity|].
  rewrite app_cons. simpl. exact IH.
Qed.

Lemma startswith_empty p : startswith p EmptyString = true → p = EmptyString.
Proof. destruct p; [reflexivity|discriminate]. Qed.

Lemma contains_cons old c s :
  contains old (String c s) = startswith old (String c s) || contains old s.
Proof. reflexivity. Qed.

Lemma contains_false_cons old c s :
  contains old (String c s) = false →
  startswith old (String c s) = false ∧ contains old s = false.
Proof. rewrite contains_cons. apply orb_false_iff. Qed.



Lemma contains_app_l old a s :
  contains old s = true → contains old (a +:+ s) = true.
Proof.
  intros H. induction a as [|c a IH]; [exact H|].
  rewrite app_cons, contains_cons, IH. apply orb_true_r.
Qed.

(** ** [replace] *)

Lemma replace_from_skip old new x s :
  replace_from old new (String.length x) (x +:+ s) = replace_from old new 0 s.
Proof.
  induction x as [|c x IH]; simpl; [reflexivity | exact IH].
Qed.

Lemma replace_from_hit old new s :
  old ≠ EmptyString → startswith old s = true →
  replace_from old new 0 s =
  new +:+ replace_from old new 0 (slice_from (String.length old) s).
Proof.
  intros Hne H. pose proof (startswith_split _ _ H) as Hs.
  destruct old as [|c o]; [done|].
  set (r := slice_from _ s) in *. clearbody r. subst s.
  rewrite app_cons. cbn [replace_from]. rewrite <- app_cons, startswith_app.
  cbn [String.length]. rewrite Nat.sub_1_r. cbn [Nat.pred].
  rewrite replace_from_skip. reflexivity.
Qed.

Lemma replace_from_miss old new c s :
  startswith old (String c s) = false →
  replace_from old new 0 (String c s) = String c (replace_from old new 0 s).
Proof. intros H. cbn [replace_from]. rewrite H. reflexivity. Qed.

Lemma replace_nonempty old new s :
  old ≠ EmptyString → replace old new s = replace_from old new 0 s.
Proof. destruct old; [done|reflexivity]. Qed.

(** A text without the searched string is left as it is. *)
Lemma replace_from_absent old new s :
  contains old s = false → replace_from old new 0 s = s.
Proof.
  induction s as [|c s IH]; [reflexivity|].
  intros H. apply contains_false_cons in H as [H1 H2].
  rewrite replace_from_miss, IH; done.
Qed.

Lemma replace_absent old new s :
  contains old s = false → replace old new s = s.
Proof.
  intros H. destruct old as [|c o].
  - destruct s; discriminate.
  - apply replace_from_absent, H.
Qed.


(** Up to the first occurrence the text is copied. *)
Lemma replace_from_nowhere old new a s :
  nowhere old a s = true →
  replace_from old new 0 (a +:+ s) = a +:+ replace_from old new 0 s.
Proof.
  induction a as [|c a IH]; [reflexivity|].
  cbn [nowhere]. intros H. apply andb_true_iff in H as [H1 H2].
  apply negb_true_iff in H1. simpl in H1 |- *.
  rewrite H1. f_equal. apply IH, H2.
Qed.

Lemma replace_first old new a b :
  old ≠ EmptyString → nowhere old a (old +:+ b) = true →
  replace old new (a +:+ old +:+ b) = a +:+ new +:+ replace old new b.
Proof.
  intros Hne Hc. rewrite !replace_nonempty by done.
  rewrite replace_from_nowhere by done.
  rewrite replace_from_hit by (done || apply startswith_app).
  rewrite slice_from_app. reflexivity.
Qed.

Lemma first_occurrence old s :
  contains old s = true →
  ∃ a b, s = a +:+ old +:+ b ∧ nowhere old a (old +:+ b) = true.
Proof.
  induction s as [|c s IH]; intros H.
  - simpl in H. rewrite orb_false_r in H. apply startswith_empty in H.
    subst old. by exists EmptyString, EmptyString.
  - destruct (startswith old (String c s)) eqn:E.
    + exists EmptyString, (slice_from (String.length old) (String c s)).
      split; [|reflexivity]. apply startswith_split, E.
    + rewrite contains_cons, E in H. destruct (IH H) as (a & b & -> & Hc).
      exists (String c a), b. split; [reflexivity|].
      cbn [nowhere]. simpl. rewrite E. exact Hc.
Qed.

Lemma length_replace_from old new s :
  old ≠ EmptyString → String.length old ≤ String.length new →
  String.length s ≤ String.length (replace_from old new 0 s).
Proof.
  intros Hne Hl. remember (String.length s) as n eqn:Hn.
  revert s Hn. induction n as [n IH] using lt_wf_ind. intros s ->.
  destruct s as [|c s]; [simpl; lia|].
  destruct (startswith old (String c s)) eqn:E.
  - rewrite replace_from_hit by done.
    pose proof (startswith_split _ _ E) as Hs.
    set (r := slice_from _ _) in *. rewrite length_app.
    assert (String.length (String c s) = String.length old + String.length r)
      as Hlen by (rewrite Hs at 1; apply length_app).
    assert (String.length r < String.length (String c s)) as Hlt.
    { destruct old; [done|]. simpl in Hlen |- *. lia. }
    specialize (IH _ Hlt r eq_refl). lia.
  - rewrite replace_from_miss by done. simpl.
    specialize (IH (String.length s) ltac:(simpl; lia) s eq_refl). lia.
Qed.

Lemma length_replace_grows old new s :
  old ≠ EmptyString → String.length old < String.length new →
  contains old s = true →
  String.length s < String.length (replace old new s).
Proof.
  intros Hne Hl H. destruct (first_occurrence _ _ H) as (a & b & -> & Hc).
  rewrite replace_first by done. rewrite replace_nonempty by done.
  rewrite !length_app.
  pose proof (length_replace_from old new b Hne ltac:(lia)). lia.
Qed.

(** ** Occurrences created by a replacement *)

Lemma agree_sym x y : agree x y = agree y x.
Proof.
  revert y. induction x as [|c x IH]; intros [|d y]; try reflexivity.
  simpl. rewrite IH, Ascii.eqb_sym. reflexivity.
Qed.

Lemma startswith_agree x u s : startswith x (u +:+ s) = true → agree x u = true.
Proof.
  revert u. induction x as [|c x IH]; intros [|d u] H; try reflexivity.
  simpl in H |- *. apply andb_true_iff in H as [-> H]. eauto.
Qed.

Lemma contains_after_copy x new s :
  starts_inside x new = false → contains x s = false →
  contains x (new +:+ s) = false.
Proof.
  intros Hn Hs. induction new as [|c new IH]; [exact Hs|].
  cbn [starts_inside] in Hn. apply orb_false_iff in Hn as [Ha Hn].
  simpl. rewrite (IH Hn), orb_false_r.
  destruct (startswith x (String c (new +:+ s))) eqn:E; [|reflexivity].
  apply (startswith_agree x (String c new) s) in E. congruence.
Qed.

(** What the result starts with, the text started with, unless a copy of
    [new] begins inside it. *)
Lemma startswith_replace_from old new x s :
  old ≠ EmptyString → startswith x (replace_from old new 0 s) = true →
  startswith x s = true ∨ starts_inside new x = true.
Proof.
  intros Hne. revert s. induction x as [|c x IH]; intros s H; [by left|].
  destruct s as [|d s]; [discriminate|].
  destruct (startswith old (String d s)) eqn:E.
  - rewrite replace_from_hit in H by done. right.
    apply startswith_agree in H. cbn [starts_inside].
    rewrite agree_sym, H. reflexivity.
  - rewrite replace_from_miss in H by done. simpl in H.
    apply andb_true_iff in H as [Hc H]. destruct (IH _ H) as [H'|H'].
    + left. simpl. rewrite Hc, H'. reflexivity.
    + right. cbn [starts_inside]. rewrite H'. apply orb_true_r.
Qed.

(** When [old] cannot share characters with a copy of [new], no occurrence
    of [old] is left after the replacement. *)
Lemma replace_from_exhausts old new s :
  old ≠ EmptyString → touch old new = false →
  contains old (replace_from old new 0 s) = false.
Proof.
  intros Hne Ht. apply orb_false_iff in Ht as [Ht1 Ht2].
  remember (String.length s) as n eqn:Hn.
  revert s Hn. induction n as [n IH] using lt_wf_ind. intros s ->.
  destruct s as [|c s]; [by destruct old|].
  destruct (startswith old (String c s)) eqn:E.
  - rewrite replace_from_hit by done.
    apply contains_after_copy; [done|].
    apply (IH (String.length (slice_from (String.length old) (String c s))));
      [|done].
    pose proof (startswith_split _ _ E) as Hs.
    set (r := slice_from _ _) in *.
    assert (String.length (String c s) = String.length old + String.length r)
      as Hlen by (rewrite Hs at 1; apply length_app).
    destruct old; [done|]. simpl in Hlen |- *. lia.
  - rewrite replace_from_miss by done. rewrite contains_cons.
    rewrite (IH (String.length s)) by (simpl; lia || done).
    rewrite orb_false_r.
    destruct (startswith old (String c (replace_from old new 0 s))) eqn:E';
      [|reflexivity].
    destruct old as [|o old']; [done|]. simpl in E'.
    apply andb_true_iff in E' as [Hc E'].
    apply startswith_replace_from in E' as [E'|E']; [| |done].
    + simpl in E. rewrite Hc, E' in E. discriminate.
    + cbn [starts_inside] in Ht2. rewrite E', orb_true_r in Ht2. discriminate.
Qed.

Lemma replace_idempotent old new s :
  old ≠ EmptyString → touch old new = false →
  replace old new (replace old new s) = replace old new s.
Proof.
  intros Hne Ht. apply replace_absent. rewrite replace_nonempty by done.
  by apply replace_from_exhausts.
Qed.



(** ** The order of two rules, one name starting the other *)

Lemma nowhere_of_starts_inside x y b :
  starts_inside x y = false → nowhere x y b = true.
Proof.
  induction y as [|c y IH]; [done|].
  cbn [starts_inside nowhere]. intros H. apply orb_false_iff in H as [Ha Hs].
  rewrite (IH Hs), andb_true_r. apply negb_true_iff.
  destruct (startswith x (String c y +:+ b)) eqn:E; [|done].
  apply startswith_agree in E. congruence.
Qed.

Lemma length_slice_from x s :
  x ≠ EmptyString → startswith x s = true →
  String.length (slice_from (String.length x) s) < String.length s.
Proof.
  intros Hne H. pose proof (startswith_split _ _ H) as Hs.
  set (r := slice_from _ s) in *.
  assert (String.length s = String.length x + String.length r) as Hlen
    by (rewrite Hs at 1; apply length_app).
  destruct x; [done|]. simpl in Hlen. lia.
Qed.


(** A replacement further on does not make [x] start here, when no copy of
    [new] can begin inside [x]. *)
Lemma startswith_before_replace x old new c s :
  old ≠ EmptyString → starts_inside new (slice_from 1 x) = false →
  startswith x (String c s) = false →
  startswith x (String c (replace_from old new 0 s)) = false.
Proof.
  intros Hne Hn H. destruct x as [|o x]; [done|].
  cbn [slice_from] in Hn. simpl in H |- *.
  destruct (Ascii.eqb o c); [|done]. simpl in H |- *.
  destruct (startswith x (replace_from old new 0 s)) eqn:E; [|done].
  apply startswith_replace_from in E as [E|E]; [congruence|congruence|done].
Qed.





End StrFacts.

(** ** Counting occurrences *)

Section Occurrences.

Implicit Types (s m a b x y u : string) (c : ascii).



Lemma occurrences_nowhere m a s :
  nowhere m a s = true → occurrences m (a +:+ s) = occurrences m s.
Proof.
  induction a as [|c a IH]; [reflexivity|].
  cbn [nowhere]. intros H. apply andb_true_iff in H as [H1 H2].
  apply negb_true_iff in H1. simpl in H1 |- *. rewrite H1, IH; done.
Qed.

(** A string without the character [c] cannot reach across a [c]. *)
Lemma startswith_stops m u c y :
  has_char c m = false → startswith m (u +:+ String c y) = startswith m u.
Proof.
  revert u. induction m as [|d m IH]; intros u H; [reflexivity|].
  cbn [has_char] in H. apply orb_false_iff in H as [H1 H2].
  destruct u as [|e u]; simpl.
  - rewrite Ascii.eqb_sym, H1. reflexivity.
  - rewrite IH by done. reflexivity.
Qed.

Lemma occurrences_across m x c y :
  m ≠ EmptyString → has_char c m = false →
  occurrences m (x +:+ String c y) = occurrences m x + occurrences m y.
Proof.
  intros Hne Hc. induction x as [|e x IH].
  - simpl. pose proof (startswith_stops m EmptyString c y Hc) as H.
    simpl in H. rewrite H. by destruct m.
  - pose proof (startswith_stops m (String e x) c y Hc) as H.
    simpl in H |- *. rewrite H, IH. lia.
Qed.

End Occurrences.

(** * Facts about the regular expressions *)

Section ReFacts.

Implicit Types (s old new : string) (p : Re.pattern) (t : Re.template).




(** Where the pattern matches nowhere, the text is left as it is. *)
Lemma sub_from_no_match ml p t prev s :
  Re.found_from ml p prev s = false → Re.sub_from ml p t 0 prev s = s.
Proof.
  revert prev. induction s as [|c s IH]; intros prev H.
  - simpl in H |- *. by destruct (Re.match_here ml p prev EmptyString 0 None).
  - cbn [Re.found_from Re.sub_from] in H |- *.
    destruct (Re.match_here ml p prev (String c s) 0 None); [discriminate|].
    by rewrite IH.
Qed.

Lemma sub_no_match ml p t s :
  Re.search ml p s = false → Re.sub ml p t s = s.
Proof. apply sub_from_no_match. Qed.

End ReFacts.

(** * The rewrites of the scripts *)

Section Rewrites.







End Rewrites.

Section Imports.







Lemma import_open_split a b :
  a +:+ FixCliImports.import_open +:+ b =
  (a +:+ "import ") +:+ String "(" b.
Proof. rewrite app_assoc. reflexivity. Qed.





End Imports.

(** * Facts about the tree and the runs *)

Section OsFacts.
Import Os.

Implicit Types (t : tree) (p k : string).

Lemma elem_of_paths t k : k ∈ paths t ↔ is_Some (t !! k).
Proof.
  unfold paths. rewrite list_elem_of_fmap. split.
  - intros ([k' v] & -> & Hin). apply elem_of_map_to_list in Hin. by exists v.
  - intros [v Hv]. exists (k, v). split; [reflexivity|].
    by apply elem_of_map_to_list.
Qed.

Lemma is_dir_spec t p :
  is_dir t p = true ↔
  ∃ k, is_Some (t !! k) ∧ startswith (p +:+ "/") k = true.
Proof.
  unfold is_dir. rewrite existsb_exists. split.
  - intros (k & Hin & Hs). exists k. split; [|done].
    by apply elem_of_paths, list_elem_of_In.
  - intros (k & Hk & Hs). exists k. split; [|done].
    by apply list_elem_of_In, elem_of_paths.
Qed.

Lemma well_formed_file t k :
  well_formed t = true → is_Some (t !! k) → is_dir t k = false.
Proof.
  unfold well_formed. rewrite forallb_forall. intros H Hk.
  apply negb_true_iff, H, list_elem_of_In, elem_of_paths, Hk.
Qed.


Lemma keeps_ret {A} p (a : A) : keeps p (ret a).
Proof. by intros t. Qed.

Lemma keeps_bind {A B} p (m : M A) (k : A → M B) :
  keeps p m → (∀ a, keeps p (k a)) → keeps p (bind m k).
Proof.
  intros Hm Hk t. unfold bind. specialize (Hm t).
  destruct (m t) as [[a|e] t']; simpl in *; [|done].
  by rewrite Hk.
Qed.

Lemma keeps_for_each {A} p (xs : list A) (body : A → M unit) :
  (∀ x, x ∈ xs → keeps p (body x)) → keeps p (for_each xs body).
Proof.
  induction xs as [|x xs IH]; intros H; [apply keeps_ret|].
  cbn [for_each]. apply keeps_bind.
  - apply H. by left.
  - intros _. apply IH. intros y Hy. apply H. by right.
Qed.

Lemma keeps_path_exists p q : keeps p (path_exists q).
Proof. by intros t. Qed.

Lemma keeps_read_file p q : keeps p (read_file q).
Proof. intros t. unfold read_file. by destruct (t !! q). Qed.

Lemma keeps_listdir p q : keeps p (listdir q).
Proof.
  intros t. unfold listdir. destruct (t !! q); [done|].
  by destruct (is_dir t q).
Qed.

(** A write changes at most the file written. *)
Lemma keeps_write_file d p q content : p ≠ q → keeps p (write_file d q content).
Proof.
  intros Hne t. unfold write_file. destruct (is_dir t q); [done|].
  destruct (d q content) as [kept|[partial|]]; simpl;
    by rewrite ?lookup_insert_ne.
Qed.

End OsFacts.

Section ScriptFacts.
Import Os Script.

Implicit Types (t : tree) (p q : string) (d : disk).

(** [fix_file] returns before it writes when the path ends in [_test.go]. *)
Lemma fix_file_test_untouched d p t :
  endswith p "_test.go" = true → (fix_file d p t).2 = t.
Proof.
  intros H. unfold fix_file, bind, read_file.
  destruct (t !! p); [|done]. by rewrite H, orb_true_r.
Qed.

Lemma fix_file_keeps_tests d q p :
  endswith p "_test.go" = true → keeps p (fix_file d q).
Proof.
  intros H. destruct (decide (p = q)) as [->|Hne].
  - intros t. by rewrite fix_file_test_untouched.
  - unfold fix_file. apply keeps_bind; [apply keeps_read_file|].
    intros content. destruct (_ || _); [apply keeps_ret|].
    by apply keeps_write_file.
Qed.

Lemma fix_cli_imports_keeps_tests d p :
  endswith p "_test.go" = true → keeps p (fix_cli_imports d).
Proof.
  intros H. unfold fix_cli_imports. apply keeps_for_each. intros pkg _.
  apply keeps_bind; [apply keeps_path_exists|]. intros [|]; [|apply keeps_ret].
  apply keeps_bind; [apply keeps_listdir|]. intros names.
  apply keeps_for_each. intros filename _.
  destruct (_ && _); [|apply keeps_ret]. by apply fix_file_keeps_tests.
Qed.


(** ** move_and_update.py *)

(** No destination of [file_mapping] is a source or lies below one. *)
Lemma mapping_separated :
  forallb (fun e =>
    forallb (fun e' =>
      negb (String.eqb (src_of e'.1) (dst_of e.1 e.2)) &&
      negb (startswith (src_of e'.1 +:+ "/") (dst_of e.1 e.2)))
      MoveAndUpdate.file_mapping)
    MoveAndUpdate.file_mapping = true.
Proof. vm_compute. reflexivity. Qed.

Lemma mapping_src_dst e e' :
  e ∈ MoveAndUpdate.file_mapping → e' ∈ MoveAndUpdate.file_mapping →
  src_of e'.1 ≠ dst_of e.1 e.2 ∧
  startswith (src_of e'.1 +:+ "/") (dst_of e.1 e.2) = false.
Proof.
  intros He He'. pose proof mapping_separated as H.
  rewrite forallb_forall in H. apply list_elem_of_In, H in He.
  rewrite forallb_forall in He. apply list_elem_of_In, He in He'.
  apply andb_true_iff in He' as [H1 H2].
  apply negb_true_iff in H1, H2. split; [|done].
  by apply String.eqb_neq.
Qed.

(** What one turn of the loop can leave: the tree as it was, or the
    destination written, or the destination written and the source
    removed; the last two only when the source exists. *)
Lemma move_one_cases d e t :
  (move_one d e t).2 = t ∨
  exists_in t (src_of e.1) = true ∧
  ∃ k, (move_one d e t).2 = <[dst_of e.1 e.2 := k]> t ∨
       (move_one d e t).2 = delete (src_of e.1) (<[dst_of e.1 e.2 := k]> t).
Proof.
  destruct e as [filename pkg]. unfold move_one, bind, path_exists.
  cbn [fst snd]. fold (dst_of filename pkg).
  destruct (exists_in t (src_of filename)) eqn:Hex; [|by left].
  unfold makedirs. destruct (t !! join MoveAndUpdate.cli_dir pkg); [by left|].
  unfold read_file. destruct (t !! src_of filename) as [content|]; [|by left].
  unfold write_file. destruct (is_dir t (dst_of filename pkg)); [by left|].
  destruct (d _ _) as [kept|[partial|]]; [| |by left].
  - right. split; [done|]. exists kept. unfold remove.
    destruct (_ !! src_of filename); [by right|by left].
  - right. split; [done|]. exists partial. by left.
Qed.

Lemma exists_in_spec t p :
  exists_in t p = true ↔
  is_Some (t !! p) ∨ ∃ k, is_Some (t !! k) ∧ startswith (p +:+ "/") k = true.
Proof.
  unfold exists_in. rewrite orb_true_iff, bool_decide_eq_true, is_dir_spec.
  reflexivity.
Qed.

Section Frame.

Variables (d : disk) (t0 : tree).


Lemma grown_exists_in t e :
  grown t0 t → e ∈ MoveAndUpdate.file_mapping →
  exists_in t (src_of e.1) = true → exists_in t0 (src_of e.1) = true.
Proof.
  intros Hg He. rewrite !exists_in_spec. intros [H|(k & Hk & Hs)].
  - destruct (Hg _ H) as [H0|(e' & He' & Heq)]; [by left|].
    by destruct (mapping_src_dst e' e He' He) as [Hne _].
  - destruct (Hg _ Hk) as [H0|(e' & He' & ->)]; [right; by exists k|].
    destruct (mapping_src_dst e' e He' He) as [_ Hf]. congruence.
Qed.

Lemma grown_move_one t e :
  grown t0 t → e ∈ MoveAndUpdate.file_mapping → grown t0 (move_one d e t).2.
Proof.
  intros Hg He k.
  destruct (move_one_cases d e t) as [->|(_ & kept & [->| ->])]; [apply Hg|..].
  - rewrite lookup_insert. case_decide; [subst; right; by exists e|apply Hg].
  - rewrite lookup_delete. case_decide; [by intros [? ?]|].
    rewrite lookup_insert. case_decide; [subst; right; by exists e|apply Hg].
Qed.

Lemma affected_false p e :
  affected t0 p = false → e ∈ MoveAndUpdate.file_mapping →
  exists_in t0 (src_of e.1) = true →
  p ≠ src_of e.1 ∧ p ≠ dst_of e.1 e.2.
Proof.
  unfold affected. intros Ha He Hex.
  destruct (existsb _ _) eqn:E in Ha; [discriminate|].
  rewrite <- not_true_iff_false, existsb_exists in E.
  split; intros ->; apply E; exists e;
    (split; [by apply list_elem_of_In|]);
    rewrite Hex, String.eqb_refl; by rewrite ?orb_true_r.
Qed.

Lemma move_loop_frame p l t :
  affected t0 p = false →
  (∀ e, e ∈ l → e ∈ MoveAndUpdate.file_mapping) →
  grown t0 t → t !! p = t0 !! p →
  (for_each l (move_one d) t).2 !! p = t0 !! p.
Proof.
  intros Ha. revert t. induction l as [|e l IH]; intros t Hl Hg Hp; [done|].
  cbn [for_each]. unfold bind.
  assert (e ∈ MoveAndUpdate.file_mapping) as He by (apply Hl; by left).
  pose proof (grown_move_one t e Hg He) as Hg'.
  assert ((move_one d e t).2 !! p = t0 !! p) as Hp'.
  { destruct (move_one_cases d e t) as [->|(Hex & kept & Hc)]; [done|].
    apply (grown_exists_in t e Hg He) in Hex.
    destruct (affected_false p e Ha He Hex) as [Hs Hd].
    destruct Hc as [-> | ->];
      by rewrite ?lookup_delete_ne, ?lookup_insert_ne. }
  destruct (move_one d e t) as [[[]|x] t']; simpl in *; [|done].
  apply IH; [|done..]. intros e' He'. apply Hl. by right.
Qed.

End Frame.

(** The destination of an entry of [file_mapping] lies in the directory
    made for it and is not the source. *)
Lemma mapping_dst e :
  e ∈ MoveAndUpdate.file_mapping →
  startswith (join MoveAndUpdate.cli_dir e.2 +:+ "/") (dst_of e.1 e.2) = true ∧
  src_of e.1 ≠ dst_of e.1 e.2.
Proof.
  intros He. split; [|by apply (mapping_src_dst e e)].
  assert (forallb (fun e : string * string =>
            startswith (join MoveAndUpdate.cli_dir e.2 +:+ "/")
              (dst_of e.1 e.2)) MoveAndUpdate.file_mapping = true) as H
    by (vm_compute; reflexivity).
  rewrite forallb_forall in H. by apply H, list_elem_of_In.
Qed.

End ScriptFacts.

Section MoreRewrites.


Lemma searched_nonempty r :
  r ∈ FixCliImports.replacements ++ MoveAndUpdate.replacements →
  r.1 ≠ EmptyString.
Proof.
  intros Hr.
  assert (forallb (fun r : string * string => negb (String.eqb r.1 EmptyString))
            (FixCliImports.replacements ++ MoveAndUpdate.replacements) = true)
    as H by (vm_compute; reflexivity).
  rewrite forallb_forall in H. apply list_elem_of_In, H in Hr.
  apply negb_true_iff in Hr. by apply String.eqb_neq.
Qed.

(** Rules that prefix a package name do not shorten the text. *)
Lemma apply_replacements_length rs s :
  forallb (fun r : string * string =>
             negb (String.eqb r.1 EmptyString) &&
             (String.length r.1 <=? String.length r.2)) rs = true →
  String.length s ≤ String.length (FixCliImports.apply_replacements rs s).
Proof.
  unfold FixCliImports.apply_replacements. revert s.
  induction rs as [|[old new] rs IH]; intros s H; [done|].
  cbn [forallb fold_left fst snd] in H |- *.
  apply andb_true_iff in H as [H Hrs]. apply andb_true_iff in H as [Hne Hl].
  apply negb_true_iff, String.eqb_neq in Hne. apply Nat.leb_le in Hl.
  specialize (IH (replace old new s) Hrs).
  pose proof (length_replace_from old new s Hne Hl) as H.
  rewrite <- replace_nonempty in H by done. lia.
Qed.

Lemma apply_replacements_grows old new rs s :
  old ≠ EmptyString → String.length old < String.length new →
  forallb (fun r : string * string =>
             negb (String.eqb r.1 EmptyString) &&
             (String.length r.1 <=? String.length r.2)) rs = true →
  contains old s = true →
  FixCliImports.apply_replacements ((old, new) :: rs) s ≠ s.
Proof.
  intros Hne Hl Hrs Hc Heq.
  pose proof (length_replace_grows old new s Hne Hl Hc) as H1.
  pose proof (apply_replacements_length rs (replace old new s) Hrs) as H2.
  change (FixCliImports.apply_replacements ((old, new) :: rs) s)
    with (FixCliImports.apply_replacements rs (replace old new s)) in Heq.
  rewrite Heq in H2. lia.
Qed.












(** A rule whose replacement cannot hold or complete the searched string
    does nothing when it is applied again. *)
Lemma rule_idempotent r s :
  r ∈ FixCliImports.replacements → r ∉ FixCliImports.recurring →
  replace r.1 r.2 (replace r.1 r.2 s) = replace r.1 r.2 s.
Proof.
  intros Hr Hn. apply replace_idempotent.
  - apply searched_nonempty, elem_of_app. by left.
  - destruct (touch r.1 r.2) eqn:E; [|done]. exfalso. apply Hn.
    unfold FixCliImports.recurring. by apply list_elem_of_filter.
Qed.

(** move_and_update.py adds the import of [base] to a unit that has it;
    fix_packages.py tests for it first. *)
Lemma base_import_repeated :
  occurrences FixPackages.base_path Sample.with_base = 1 ∧
  occurrences FixPackages.base_path
    (MoveAndUpdate.rewrite "drive" Sample.with_base) = 2 ∧
  occurrences FixPackages.base_path
    (FixPackages.rewrite "drive" Sample.with_base) = 1.
Proof. repeat apply conj; vm_compute; reflexivity. Qed.

(** [^] without MULTILINE matches nowhere but at the start of the text. *)
Lemma bol_not_found p c s :
  Re.found_from false (Re.Bol :: p) (Some c) s = false.
Proof.
  revert c. induction s as [|e s IH]; intros c; simpl; [done|apply IH].
Qed.

Lemma fix_package_after_slash pkg s :
  FixPackages.fix_package pkg ("/" +:+ s) = "/" +:+ s.
Proof.
  unfold FixPackages.fix_package, Re.sub. simpl.
  by rewrite sub_from_no_match by apply bol_not_found.
Qed.

End MoreRewrites.

(** * The claims *)

Import Os Script.










(** C4, as amended. The scripts check nothing about their lists:
    [NewOutputWriter(] is bound to [cli.] by fix_cli_imports.py and to
    [base.] by move_and_update.py, and each list rewrites every text in
    which the name occurs. *)
Theorem C4_doubly_bound_symbol_is_rewritten (s : string) :
  contains "NewOutputWriter(" s = true →
  FixCliImports.apply_replacements FixCliImports.replacements s ≠ s ∧
  FixCliImports.apply_replacements MoveAndUpdate.replacements s ≠ s.
Proof.
  intros H.
  split; (apply apply_replacements_grows;
          [discriminate | simpl; lia | vm_compute; reflexivity | exact H]).
Qed.

Lemma C4_witness :
  contains "NewOutputWriter(" "w := NewOutputWriter(os.Stdout)" = true ∧
  FixCliImports.apply_replacements FixCliImports.replacements
    "w := NewOutputWriter(os.Stdout)" ≠ "w := NewOutputWriter(os.Stdout)" ∧
  FixCliImports.apply_replacements MoveAndUpdate.replacements
    "w := NewOutputWriter(os.Stdout)" ≠ "w := NewOutputWriter(os.Stdout)".
Proof.
  split; [reflexivity|].
  apply (C4_doubly_bound_symbol_is_rewritten "w := NewOutputWriter(os.Stdout)").
  reflexivity.
Defined.

(** C4, as stated, fails: the lists of the scripts bind [NewOutputWriter(]
    to two packages, and move_and_update.py followed by fix_cli_imports.py
    runs to the end and rewrites the unit with both. *)
Lemma C4_counterexample :
  Script.conflicting (FixCliImports.replacements ++ MoveAndUpdate.replacements)
    = true ∧
  Os.finished (Script.move_and_update Os.faithful) Sample.in_cli = true ∧
  let moved := Os.final (Script.move_and_update Os.faithful) Sample.in_cli in
  Os.finished (Script.fix_cli_imports Os.faithful) moved = true ∧
  Os.final (Script.fix_cli_imports Os.faithful) moved
    !! "internal/cli/drive/files.go" =
  Some (FixCliImports.rewrite (MoveAndUpdate.rewrite "drive" Sample.list_cmd)) ∧
  contains "base.cli.NewOutputWriter("
    (FixCliImports.rewrite (MoveAndUpdate.rewrite "drive" Sample.list_cmd))
    = true.
Proof. repeat apply conj; vm_compute; reflexivity. Qed.










(** C8: the code at the failing input. fix_packages.py leaves every unit
    that starts with a comment as it is, package clause included, because
    its pattern is compiled without MULTILINE; the unit [licensed] keeps
    [package cli] in the directory of [drive]. The pattern of
    move_and_update.py, compiled with MULTILINE, rewrites the same unit. *)
Theorem C8_fix_packages_misses_clause_after_comment :
  (∀ pkg s, FixPackages.fix_package pkg ("/" +:+ s) = "/" +:+ s) ∧
  FixPackages.fix_package "drive" Sample.licensed = Sample.licensed ∧
  contains "package drive" (FixPackages.rewrite "drive" Sample.licensed)
    = false ∧
  Os.final (Script.fix_packages Os.faithful) Sample.licensed_in_drive
    !! "internal/cli/drive/files.go" =
  Some (FixPackages.rewrite "drive" Sample.licensed) ∧
  contains (NL +:+ "package drive" +:+ NL)
    (MoveAndUpdate.set_package "drive" Sample.licensed) = true ∧
  FixPackages.fix_package "drive" ("package cli" +:+ NL) =
  "package drive" +:+ NL.
Proof.
  split; [apply fix_package_after_slash|].
  repeat apply conj; vm_compute; reflexivity.
Qed.

(** C9. For every path that ends in [_test.go], whatever the tree and the
    disk: [fix_file] leaves the tree as it is, the test of the directory
    walk rejects the name, and the file is after a run of
    fix_cli_imports.py what it was before. *)
Theorem C9_test_files_left_unchanged (d : disk) (t : tree) (p : string) :
  endswith p "_test.go" = true →
  (fix_file d p t).2 = t ∧
  endswith p ".go" && negb (endswith p "_test.go") = false ∧
  final (fix_cli_imports d) t !! p = t !! p.
Proof.
  intros H. split; [by apply fix_file_test_untouched|]. split.
  - by rewrite H, andb_false_r.
  - by apply fix_cli_imports_keeps_tests.
Qed.

Lemma C9_witness :
  endswith "internal/cli/drive/files_test.go" "_test.go" = true ∧
  final (fix_cli_imports faithful) Sample.with_test
    !! "internal/cli/drive/files_test.go" =
  Sample.with_test !! "internal/cli/drive/files_test.go".
Proof.
  split; [reflexivity|].
  apply (C9_test_files_left_unchanged faithful Sample.with_test
           "internal/cli/drive/files_test.go").
  reflexivity.
Defined.

(** C10, as amended. A run of move_and_update.py leaves unchanged every
    path that is neither the source [internal/cli/<name>] nor the
    destination [internal/cli/<pkg>/<name>] of an entry of [file_mapping]
    whose source exists, whatever the disk and however the run ends. *)
Theorem C10_only_sources_and_destinations_change
    (d : disk) (t : tree) (p : string) :
  affected t p = false → final (move_and_update d) t !! p = t !! p.
Proof.
  intros H. apply (move_loop_frame d t p MoveAndUpdate.file_mapping t);
    [done|done| |done].
  intros k Hk. by left.
Qed.

Lemma C10_witness :
  affected Sample.with_root "internal/cli/root.go" = false ∧
  final (move_and_update faithful) Sample.with_root !! "internal/cli/root.go" =
  Sample.with_root !! "internal/cli/root.go".
Proof.
  assert (affected Sample.with_root "internal/cli/root.go" = false) as H
    by (vm_compute; reflexivity).
  split; [exact H|].
  exact (C10_only_sources_and_destinations_change faithful Sample.with_root
           "internal/cli/root.go" H).
Defined.

(** C10, as stated, fails: the file at [internal/cli/drive/files.go] is
    not directly under [internal/cli], it is the source of no entry, and
    the run replaces its content. *)
Lemma C10_counterexample :
  let p := "internal/cli/drive/files.go" in
  forallb (fun e : string * string => negb (String.eqb p (src_of e.1)))
    MoveAndUpdate.file_mapping = true ∧
  Sample.taken !! p = Some Sample.error_cmd ∧
  final (move_and_update faithful) Sample.taken !! p =
    Some (MoveAndUpdate.rewrite "drive" Sample.list_cmd) ∧
  final (move_and_update faithful) Sample.taken !! p ≠ Sample.taken !! p.
Proof.
  cbv zeta. repeat apply conj; vm_compute; (reflexivity || discriminate).
Qed.

(** * Further properties of the rewrites *)

(** ** The course of a match *)

Section Course.

Import Text.

Lemma plus_from_eq ml grp k p' prev s n g :
  Re.match_here ml (Re.Plus grp k :: p') prev s n g =
  plus_from ml p' grp k g s n EmptyString.
Proof. reflexivity. Qed.

Lemma after_cons prev c x : after prev (String c x) = Some (default c (last x)).
Proof.
  unfold after. simpl. destruct x as [|d x]; [reflexivity|].
  destruct (last (String d x)) eqn:E; [reflexivity|].
  exfalso. clear -E. revert d E. induction x as [|e x IH]; intros d E.
  - discriminate.
  - apply (IH e). exact E.
Qed.

Lemma after_after prev c x : after (Some c) x = after prev (String c x).
Proof.
  rewrite after_cons. unfold after. destruct (last x); reflexivity.
Qed.


(** A literal stretch of a pattern consumes exactly its text. *)
Lemma match_here_lit_app ml x p' prev s n g :
  Re.match_here ml (Re.lit x ++ p') prev s n g =
  if startswith x s
  then Re.match_here ml p' (after prev x) (slice_from (String.length x) s)
         (n + String.length x) g
  else None.
Proof.
  revert prev s n. induction x as [|c x IH]; intros prev s n.
  - simpl. rewrite Nat.add_0_r. destruct s; reflexivity.
  - destruct s as [|d s]; [reflexivity|].
    cbn [Re.lit app Re.match_here startswith String.length slice_from].
    rewrite Ascii.eqb_sym.
    destruct (Ascii.eqb d c) eqn:E; [|reflexivity].
    apply Ascii.eqb_eq in E. subst d. cbn [andb].
    rewrite IH, <- (after_after prev), Nat.add_succ_r. reflexivity.
Qed.

(** Under MULTILINE the start of the text and the position after a newline
    are the same to a pattern. *)
Lemma match_here_after_newline p s n g :
  Re.match_here true p (Some "010"%char) s n g =
  Re.match_here true p None s n g.
Proof.
  revert s n g. induction p as [|i p IH]; intros s n g; [reflexivity|].
  destruct i; try reflexivity.
  - cbn [Re.match_here Re.at_bol andb]. simpl Ascii.eqb. apply IH.
  - cbn [Re.match_here]. rewrite IH. reflexivity.
  - cbn [Re.match_here]. rewrite IH. reflexivity.
Qed.

Lemma sub_from_after_newline p t skip s :
  Re.sub_from true p t skip (Some "010"%char) s = Re.sub_from true p t skip None s.
Proof.
  destruct s as [|c s]; cbn [Re.sub_from]; rewrite ?match_here_after_newline;
    reflexivity.
Qed.

(** The characters of a match are skipped without a look at them. *)
Lemma sub_from_skip ml p t prev x s :
  Re.sub_from ml p t (String.length x) prev (x +:+ s) =
  Re.sub_from ml p t 0 (after prev x) s.
Proof.
  revert prev. induction x as [|c x IH]; intros prev; [reflexivity|].
  rewrite app_cons. cbn [String.length Re.sub_from].
  rewrite IH, (after_after prev). reflexivity.
Qed.

(** A match that consumes [x] is replaced and the scan goes on after it. *)
Lemma sub_from_hit ml p t prev x s g :
  x <> EmptyString ->
  Re.match_here ml p prev (x +:+ s) 0 None = Some (String.length x, g) ->
  Re.sub_from ml p t 0 prev (x +:+ s) =
  Re.expand t g +:+ Re.sub_from ml p t 0 (after prev x) s.
Proof.
  intros Hx H. destruct x as [|c x]; [congruence|].
  rewrite app_cons in *. cbn [Re.sub_from]. rewrite H. cbn [String.length].
  rewrite sub_from_skip, (after_after prev). reflexivity.
Qed.

Lemma sub_from_miss ml p t prev c s :
  Re.match_here ml p prev (String c s) 0 None = None ->
  Re.sub_from ml p t 0 prev (String c s) =
  String c (Re.sub_from ml p t 0 (Some c) s).
Proof. intros H. cbn [Re.sub_from]. rewrite H. reflexivity. Qed.

(** A match begins with the leading literal text of its pattern. *)
Lemma match_here_leading ml p prev s n g :
  startswith (leading p) s = false -> Re.match_here ml p prev s n g = None.
Proof.
  revert prev s n g. induction p as [|i p IH]; intros prev s n g H.
  - destruct s; discriminate.
  - destruct i; try (destruct s; discriminate H).
    + destruct s as [|d s]; [reflexivity|].
      cbn [leading startswith] in H. cbn [Re.match_here].
      destruct (Ascii.eqb c d); [|reflexivity]. apply IH. exact H.
    + cbn [Re.match_here]. destruct (Re.at_bol ml prev); [|reflexivity].
      apply IH. exact H.
    + cbn [Re.match_here]. destruct (Re.at_eol ml s); [|reflexivity].
      apply IH. exact H.
    + cbn [Re.match_here].
      destruct (xorb _ _); [|reflexivity]. apply IH. exact H.
Qed.


End Course.

(** ** Patterns that take a whole line *)

Section LineByLine.

Import Text.

Lemma last_cons c x : last (String c x) = Some (default c (last x)).
Proof.
  revert c. induction x as [|d x IH]; intros c; [reflexivity|].
  change (last (String c (String d x))) with (last (String d x)).
  rewrite IH. reflexivity.
Qed.

Lemma last_not_newline a x :
  has_char "010" (String a x) = false -> default a (last x) <> "010"%char.
Proof.
  revert a. induction x as [|b x IH]; intros a Hx.
  - cbn [has_char] in Hx. apply orb_false_iff in Hx as [Hx _].
    simpl. intros ->. discriminate.
  - cbn [has_char] in Hx. apply orb_false_iff in Hx as [_ Hx].
    rewrite last_cons. apply (IH b). exact Hx.
Qed.

(** Within a line no match of a pattern anchored by [^] begins. *)
Lemma bol_inside_line q t c line s :
  has_char "010" line = false -> c <> "010"%char ->
  Re.sub_from true (Re.Bol :: q) t 0 (Some c) (line +:+ NL +:+ s) =
  line +:+ NL +:+ Re.sub_from true (Re.Bol :: q) t 0 None s.
Proof.
  revert c. induction line as [|d line IH]; intros c Hl Hc.
  - change (EmptyString +:+ NL +:+ s) with (String "010" s).
    rewrite sub_from_miss, sub_from_after_newline; [reflexivity|].
    cbn [Re.match_here Re.at_bol andb].
    apply Ascii.eqb_neq in Hc. rewrite Hc. reflexivity.
  - cbn [has_char] in Hl. apply orb_false_iff in Hl as [Hd Hl].
    rewrite app_cons, sub_from_miss.
    + rewrite IH; [reflexivity|exact Hl|].
      intros ->. discriminate.
    + cbn [Re.match_here Re.at_bol andb].
      apply Ascii.eqb_neq in Hc. rewrite Hc. reflexivity.
Qed.

Lemma bol_inside_last_line q t c line :
  has_char "010" line = false -> c <> "010"%char ->
  Re.sub_from true (Re.Bol :: q) t 0 (Some c) line = line.
Proof.
  revert c. induction line as [|d line IH]; intros c Hl Hc.
  - cbn [Re.sub_from Re.match_here Re.at_bol andb].
    apply Ascii.eqb_neq in Hc. rewrite Hc. reflexivity.
  - cbn [has_char] in Hl. apply orb_false_iff in Hl as [Hd Hl].
    rewrite sub_from_miss.
    + rewrite IH; [reflexivity|exact Hl|]. intros ->. discriminate.
    + cbn [Re.match_here Re.at_bol andb].
      apply Ascii.eqb_neq in Hc. rewrite Hc. reflexivity.
Qed.

(** [x] followed by the end of the line at the start of [line ++ tail],
    where the line ends with [tail]: the line is [x]. *)
Lemma whole_line x line tail :
  has_char "010" x = false -> has_char "010" line = false ->
  Re.at_eol true tail = true ->
  startswith x (line +:+ tail) &&
  Re.at_eol true (slice_from (String.length x) (line +:+ tail)) =
  String.eqb line x.
Proof.
  revert line. induction x as [|a x IH]; intros line Hx Hl Ht.
  - cbn [startswith String.length slice_from andb].
    destruct line as [|c line].
    + simpl. rewrite Ht. reflexivity.
    + cbn [has_char] in Hl. apply orb_false_iff in Hl as [Hc _].
      rewrite app_cons. cbn [Re.at_eol slice_from].
      rewrite Ascii.eqb_sym, Hc. reflexivity.
  - cbn [has_char] in Hx. apply orb_false_iff in Hx as [Ha Hx].
    destruct line as [|c line].
    + destruct tail as [|e tail]; [reflexivity|].
      simpl in Ht. apply andb_true_iff in Ht as [He _].
      apply Ascii.eqb_eq in He. subst e.
      cbn [String.append startswith]. rewrite Ascii.eqb_sym, Ha. reflexivity.
    + cbn [has_char] in Hl. apply orb_false_iff in Hl as [_ Hl].
      rewrite app_cons. cbn [startswith String.length slice_from String.eqb].
      rewrite (Ascii.eqb_sym c a).
      destruct (Ascii.eqb a c); [|reflexivity].
      cbn [andb]. apply IH; assumption.
Qed.

Lemma whole_line_match x line tail :
  has_char "010" x = false -> has_char "010" line = false ->
  Re.at_eol true tail = true ->
  Re.match_here true (Re.Bol :: Re.lit x ++ [Re.Eol]) None (line +:+ tail)
    0 None =
  if String.eqb line x then Some (String.length x, None) else None.
Proof.
  intros Hx Hl Ht. cbn [Re.match_here Re.at_bol].
  rewrite match_here_lit_app. cbn [Re.match_here].
  rewrite <- (whole_line x line tail Hx Hl Ht).
  destruct (startswith x (line +:+ tail)); [|reflexivity].
  cbn [andb]. destruct (Re.at_eol _ _); reflexivity.
Qed.

(** [re.sub] with [^x$] under MULTILINE works line by line. *)
Lemma sub_line x t line rest :
  x <> EmptyString ->
  has_char "010" x = false -> has_char "010" line = false ->
  Re.sub true (Re.Bol :: Re.lit x ++ [Re.Eol]) t (line +:+ NL +:+ rest) =
  (if String.eqb line x then Re.expand t None else line) +:+ NL +:+
  Re.sub true (Re.Bol :: Re.lit x ++ [Re.Eol]) t rest.
Proof.
  intros Hne Hx Hl. unfold Re.sub.
  pose proof (whole_line_match x line (NL +:+ rest) Hx Hl eq_refl) as M.
  destruct (String.eqb line x) eqn:E.
  - apply String.eqb_eq in E. subst line.
    rewrite sub_from_hit with (g := None); [|exact Hne|exact M].
    destruct x as [|a x]; [congruence|].
    rewrite after_cons.
    change (NL +:+ rest) with (EmptyString +:+ NL +:+ rest) at 1.
    rewrite (bol_inside_line _ _ _ EmptyString); [reflexivity|reflexivity|].
    apply last_not_newline. exact Hx.
  - destruct line as [|c line].
    + change (EmptyString +:+ NL +:+ rest) with (String "010" rest) in *.
      rewrite sub_from_miss by exact M.
      rewrite sub_from_after_newline. reflexivity.
    + rewrite app_cons in *. rewrite sub_from_miss by exact M.
      cbn [has_char] in Hl. apply orb_false_iff in Hl as [Hc Hl].
      rewrite bol_inside_line; [reflexivity|exact Hl|].
      intros ->. discriminate.
Qed.

Lemma sub_last_line x t line :
  x <> EmptyString ->
  has_char "010" x = false -> has_char "010" line = false ->
  Re.sub true (Re.Bol :: Re.lit x ++ [Re.Eol]) t line =
  if String.eqb line x then Re.expand t None else line.
Proof.
  intros Hne Hx Hl. unfold Re.sub.
  pose proof (whole_line_match x line EmptyString Hx Hl eq_refl) as M.
  rewrite app_empty_r in M.
  destruct (String.eqb line x) eqn:E.
  - apply String.eqb_eq in E. subst line.
    rewrite <- (app_empty_r x) at 2. rewrite <- (app_empty_r x) in M at 2.
    rewrite sub_from_hit with (g := None); [|exact Hne|exact M].
    destruct x as [|a x]; [congruence|].
    rewrite after_cons.
    rewrite bol_inside_last_line; [apply app_empty_r|reflexivity|].
    apply last_not_newline. exact Hx.
  - destruct line as [|c line].
    + cbn [Re.sub_from]. rewrite M. reflexivity.
    + rewrite sub_from_miss by exact M.
      cbn [has_char] in Hl. apply orb_false_iff in Hl as [Hc Hl].
      rewrite bol_inside_last_line; [reflexivity|exact Hl|].
      intros ->. discriminate.
Qed.

(** X1: the package step of move_and_update.py works line by line: a line
    that is exactly [package cli] becomes [package] and the name of the new
    package, every other line is left as it is, whether the line ends with
    a newline or ends the text. *)
Theorem set_package_line_by_line pkg line rest :
  has_char "010" line = false ->
  MoveAndUpdate.set_package pkg (line +:+ NL +:+ rest) =
    (if String.eqb line "package cli" then "package " +:+ pkg else line)
    +:+ NL +:+ MoveAndUpdate.set_package pkg rest /\
  MoveAndUpdate.set_package pkg line =
    (if String.eqb line "package cli" then "package " +:+ pkg else line).
Proof.
  intros Hl. unfold MoveAndUpdate.set_package, MoveAndUpdate.package_cli.
  split.
  - rewrite sub_line; [|discriminate|reflexivity|exact Hl].
    cbn [Re.expand]. rewrite app_empty_r. reflexivity.
  - rewrite sub_last_line; [|discriminate|reflexivity|exact Hl].
    cbn [Re.expand]. rewrite app_empty_r. reflexivity.
Qed.

Lemma set_package_line_by_line_witness :
  has_char "010" "package cli" = false /\
  MoveAndUpdate.set_package "drive"
    ("package cli" +:+ NL +:+ "// package cli" +:+ NL) =
  "package drive" +:+ NL +:+
  MoveAndUpdate.set_package "drive" ("// package cli" +:+ NL).
Proof.
  split; [reflexivity|].
  apply (proj1 (set_package_line_by_line "drive" "package cli"
                  ("// package cli" +:+ NL) eq_refl)).
Defined.

End LineByLine.

(** ** The package clause of fix_packages.py *)

Section Names.

Import Text.

(** [k+] is greedy: it takes a whole stretch of characters of the class
    when the rest of the pattern matches after it. *)
Lemma plus_from_greedy ml p' (grp : bool) k g name rest n acc r :
  name <> EmptyString -> every (Re.in_class k) name = true ->
  stops k rest = true ->
  Re.match_here ml p' (after None name) rest (n + String.length name)
    (if grp then Some (acc +:+ name) else g) = Some r ->
  plus_from ml p' grp k g (name +:+ rest) n acc = Some r.
Proof.
  revert n acc. induction name as [|c name IH]; intros n acc Hne Ha Hs M;
    [congruence|].
  cbn [every] in Ha. apply andb_true_iff in Ha as [Hc Ha].
  rewrite app_cons. cbn [plus_from]. rewrite Hc.
  destruct name as [|d name].
  - change (EmptyString +:+ rest) with rest.
    replace (plus_from ml p' grp k g rest (S n) _) with
      (@None (nat * option string)).
    + rewrite <- M. cbn [String.length]. rewrite Nat.add_1_r. reflexivity.
    + destruct rest as [|e rest]; [reflexivity|].
      cbn [stops] in Hs. apply negb_true_iff in Hs.
      cbn [plus_from]. rewrite Hs. reflexivity.
  - fold (plus_from ml p' grp k g).
    rewrite (IH (S n) (acc +:+ String c EmptyString)); [reflexivity|
      discriminate|exact Ha|exact Hs|].
    rewrite <- M, !after_cons, last_cons.
    cbn [String.length default]. rewrite !Nat.add_succ_r, app_assoc. reflexivity.
Qed.

Lemma is_name_spec name :
  is_name name = true -> name <> EmptyString /\ every Re.is_word name = true.
Proof.
  unfold is_name. intros H. apply andb_true_iff in H as [H1 H2].
  split; [|exact H2]. intros ->. discriminate.
Qed.

Lemma after_name prev name :
  name <> EmptyString -> exists c, after prev name = Some c.
Proof.
  destruct name as [|c name]; [congruence|]. intros _.
  rewrite after_cons. eauto.
Qed.

(** A package clause at the start of the text gets the name of the package. *)
Lemma fix_package_opening pkg name rest :
  is_name name = true -> stops Re.WordChar rest = true ->
  FixPackages.fix_package pkg ("package " +:+ name +:+ rest) =
  "package " +:+ pkg +:+ rest.
Proof.
  intros Hn Hs. apply is_name_spec in Hn as [Hne Ha].
  unfold FixPackages.fix_package, Re.sub.
  rewrite <- (app_assoc "package " name rest).
  rewrite sub_from_hit with (g := None).
  - cbn [Re.expand]. rewrite app_empty_r, app_assoc. do 2 f_equal.
    destruct (after_name None ("package " +:+ name)) as [c ->].
    { destruct name; [congruence|discriminate]. }
    apply sub_from_no_match, bol_not_found.
  - discriminate.
  - rewrite app_assoc. unfold FixPackages.package_clause.
    cbn [Re.match_here Re.at_bol].
    rewrite match_here_lit_app, startswith_app, slice_from_app, plus_from_eq.
    rewrite (plus_from_greedy _ _ _ _ _ name rest _ _
               (String.length ("package " +:+ name), None));
      [reflexivity|exact Hne|exact Ha|exact Hs|].
    cbn [Re.match_here]. rewrite length_app. reflexivity.
Qed.

(** X2: where the text of a unit opens with a package clause, [package], a
    blank and a name that ends there, fix_packages.py puts the name of the
    directory's package in place of the name and leaves the rest of the
    text as it is. *)
Theorem fix_package_renames_opening_clause pkg name rest :
  is_name name = true -> stops Re.WordChar rest = true ->
  FixPackages.fix_package pkg ("package " +:+ name +:+ rest) =
  "package " +:+ pkg +:+ rest.
Proof. apply fix_package_opening. Qed.

Lemma fix_package_renames_opening_clause_witness :
  is_name "cli" = true /\
  stops Re.WordChar (NL +:+ "package other" +:+ NL) = true /\
  FixPackages.fix_package "drive"
    ("package " +:+ "cli" +:+ NL +:+ "package other" +:+ NL) =
  "package " +:+ "drive" +:+ NL +:+ "package other" +:+ NL.
Proof.
  split; [reflexivity|]. split; [reflexivity|].
  apply (fix_package_renames_opening_clause "drive" "cli"
           (NL +:+ "package other" +:+ NL)); reflexivity.
Defined.

End Names.

(** ** The signature of the [Run] methods *)

Section Signatures.

Import Text.





End Signatures.

(** ** The guarded imports, a second time *)

Section ImportsAgain.

Import Text.

Lemma startswith_app_more x a b :
  startswith x a = true -> startswith x (a +:+ b) = true.
Proof.
  revert a. induction x as [|c x IH]; intros a H; [reflexivity|].
  destruct a as [|d a]; [discriminate|]. rewrite app_cons.
  cbn [startswith] in *. apply andb_true_iff in H as [-> H].
  by apply IH.
Qed.

Lemma contains_app_more x a b :
  contains x a = true -> contains x (a +:+ b) = true.
Proof.
  induction a as [|c a IH]; intros H.
  - simpl in H. rewrite orb_false_r in H. apply startswith_empty in H.
    subst x. destruct b; reflexivity.
  - rewrite app_cons, contains_cons. rewrite contains_cons in H.
    apply orb_true_iff in H as [H|H].
    + rewrite <- app_cons, (startswith_app_more _ _ _ H). reflexivity.
    + rewrite (IH H). apply orb_true_r.
Qed.

(** Where the pattern matches somewhere, the text of the template is in the
    result. *)
Lemma sub_from_found ml p t prev s x :
  (forall g, contains x (Re.expand t g) = true) ->
  Re.found_from ml p prev s = true ->
  contains x (Re.sub_from ml p t 0 prev s) = true.
Proof.
  intros Hx. revert prev. induction s as [|c s IH]; intros prev H.
  - cbn [Re.found_from Re.sub_from] in *.
    destruct (Re.match_here ml p prev EmptyString 0 None) as [[n g]|];
      [apply Hx|discriminate].
  - cbn [Re.found_from Re.sub_from] in *.
    destruct (Re.match_here ml p prev (String c s) 0 None) as [[[|n] g]|].
    + apply contains_app_more, Hx.
    + apply contains_app_more, Hx.
    + rewrite contains_cons, (IH _ H). apply orb_true_r.
Qed.

Lemma replace_puts_new old new x s :
  old <> EmptyString -> contains old s = true -> contains x new = true ->
  contains x (replace old new s) = true.
Proof.
  intros Hne Ho Hx. destruct (first_occurrence _ _ Ho) as (a & b & -> & Hcl).
  rewrite replace_first by assumption.
  apply contains_app_l, contains_app_more, Hx.
Qed.

(** After the import step the guard of the step finds the base path, or there
    was nothing to put it beside. *)
Lemma base_import_once s :
  FixPackages.add_base_import (FixPackages.add_base_import s) =
  FixPackages.add_base_import s.
Proof.
  unfold FixPackages.add_base_import at 2 3.
  destruct (contains FixPackages.base_path s) eqn:Hb; cbn [negb];
    [unfold FixPackages.add_base_import; by rewrite Hb|].
  assert (forall r, contains FixPackages.base_path r = true ->
            FixPackages.add_base_import r = r) as Hfix.
  { intros r Hr. unfold FixPackages.add_base_import. by rewrite Hr. }
  destruct (contains "import (" s) eqn:Ho.
  - apply Hfix, replace_puts_new; [discriminate|exact Ho|].
    vm_compute. reflexivity.
  - destruct (Re.search true FixPackages.single_import s) eqn:Hf.
    + apply Hfix. apply sub_from_found; [|exact Hf].
      intros g. unfold FixPackages.import_block. cbn [Re.expand].
      apply contains_app_more. vm_compute. reflexivity.
    + rewrite sub_no_match by exact Hf.
      unfold FixPackages.add_base_import. rewrite Hb, Ho. cbn [negb].
      by apply sub_no_match.
Qed.

(** X4: the import step of fix_packages.py done a second time changes
    nothing: after the first time the unit contains the path of the base
    package, or there was no import to put it beside. *)
Theorem add_base_import_idempotent s :
  FixPackages.add_base_import (FixPackages.add_base_import s) =
  FixPackages.add_base_import s.
Proof. apply base_import_once. Qed.

(** X5: the import step of update_refs.py done a second time changes
    nothing. *)
Theorem update_refs_import_idempotent s :
  UpdateRefs.add_cli_import (UpdateRefs.add_cli_import s) =
  UpdateRefs.add_cli_import s.
Proof.
  assert (forall r, contains UpdateRefs.cli_path r = true ->
            UpdateRefs.add_cli_import r = r) as Hfix.
  { intros r Hr. unfold UpdateRefs.add_cli_import. rewrite Hr.
    cbn [negb]. by destruct (_ || _). }
  unfold UpdateRefs.add_cli_import at 2 3.
  destruct (contains "cli.Globals" s || contains "cli." s) eqn:Hu.
  - destruct (contains UpdateRefs.cli_path s) eqn:Hp; cbn [negb];
      [by apply Hfix|].
    destruct (contains "import (" s) eqn:Ho.
    + apply Hfix, replace_puts_new; [discriminate|exact Ho|].
      vm_compute. reflexivity.
    + unfold UpdateRefs.add_cli_import. by rewrite Hu, Hp, Ho.
  - unfold UpdateRefs.add_cli_import. by rewrite Hu.
Qed.

End ImportsAgain.

(** ** The single-line import *)

Section SingleImport.

Import Text.




End SingleImport.

(** ** The word boundary of update_refs.py *)

Section Boundary.

Import Text.






End Boundary.

(** ** The import of move_and_update.py, counted *)

Section Counting.

(** Two strings that start the same text agree. *)
Lemma startswith_both x y s :
  startswith x s = true -> startswith y s = true -> agree x y = true.
Proof.
  revert y s. induction x as [|a x IH]; intros [|b y] [|c s] Hx Hy;
    try reflexivity; try discriminate.
  cbn [startswith agree] in *.
  apply andb_true_iff in Hx as [Ha Hx]. apply andb_true_iff in Hy as [Hb Hy].
  apply Ascii.eqb_eq in Ha, Hb. subst. rewrite Ascii.eqb_refl.
  by apply (IH y s).
Qed.

(** An occurrence of [x] in which no [old] starts is kept by the
    replacement. *)
Lemma startswith_kept x old new s :
  old <> EmptyString -> starts_inside old x = false ->
  startswith x s = true -> startswith x (replace_from old new 0 s) = true.
Proof.
  intros Hne. revert s. induction x as [|a x IH]; intros s Hin H;
    [reflexivity|].
  destruct s as [|c s]; [discriminate|].
  cbn [starts_inside] in Hin. apply orb_false_iff in Hin as [Hag Hin].
  destruct (startswith old (String c s)) eqn:E.
  - rewrite (startswith_both _ _ _ E H) in Hag. discriminate.
  - rewrite replace_from_miss by exact E. cbn [startswith] in *.
    apply andb_true_iff in H as [-> H]. by apply IH.
Qed.

(** How often [m] occurs after every [old] got [ins] behind it, where the
    two cannot overlap and [ins] ends with a character [m] does not have. *)
Lemma occurrences_after_insertion m old ins c s :
  old <> EmptyString -> m <> EmptyString ->
  starts_inside old m = false -> starts_inside m old = false ->
  starts_inside (old +:+ ins +:+ String c EmptyString) (slice_from 1 m)
    = false ->
  starts_inside old (slice_from 1 old) = false ->
  has_char c m = false ->
  occurrences m (replace_from old (old +:+ ins +:+ String c EmptyString) 0 s)
  = occurrences m s +
    occurrences m (old +:+ ins) * occurrences old s.
Proof.
  intros Hold Hm H1 H2 H3 H4 Hc.
  set (new := old +:+ ins +:+ String c EmptyString).
  remember (String.length s) as n eqn:Hn.
  revert s Hn. induction n as [n IH] using lt_wf_ind. intros s ->.
  destruct s as [|e s]; [simpl; lia|].
  destruct (startswith old (String e s)) eqn:E.
  - rewrite replace_from_hit by assumption.
    pose proof (startswith_split _ _ E) as Hs.
    set (r := slice_from (String.length old) (String e s)) in *.
    replace (new +:+ replace_from old new 0 r)
      with ((old +:+ ins) +:+ String c (replace_from old new 0 r))
      by (unfold new; rewrite !app_assoc; reflexivity).
    rewrite (occurrences_across m (old +:+ ins) c) by assumption.
    rewrite (IH (String.length r)); [|by apply length_slice_from|reflexivity].
    clearbody r. clear IH E. rewrite Hs.
    rewrite (occurrences_nowhere m old r)
      by (by apply nowhere_of_starts_inside).
    assert (occurrences old (old +:+ r) = 1 + occurrences old r) as ->.
    { destruct old as [|o old']; [congruence|].
      rewrite app_cons. cbn [occurrences]. rewrite <- app_cons, startswith_app.
      f_equal. cbn [slice_from] in H4. apply occurrences_nowhere.
      by apply nowhere_of_starts_inside. }
    lia.
  - rewrite replace_from_miss by exact E. cbn [occurrences]. rewrite E.
    rewrite (IH (String.length s)); [|simpl; lia|reflexivity].
    assert (startswith m (String e (replace_from old new 0 s)) =
            startswith m (String e s)) as ->; [|lia].
    destruct (startswith m (String e s)) eqn:Em.
    + rewrite <- (replace_from_miss old new e s E).
      by apply startswith_kept.
    + by apply startswith_before_replace.
Qed.

(** X17: where a unit has an import block, the import step of
    move_and_update.py, which does not look for the base path, adds the
    base path once for every [import (] to those the unit has. *)
Theorem move_import_adds_base_again s :
  contains "import (" s = true ->
  occurrences FixPackages.base_path (MoveAndUpdate.add_base_import s) =
  occurrences FixPackages.base_path s + occurrences "import (" s.
Proof.
  intros H. unfold MoveAndUpdate.add_base_import. rewrite H.
  rewrite replace_nonempty by discriminate.
  change FixPackages.import_open_base
    with ("import (" +:+ (NL +:+ TAB +:+ DQ +:+ FixPackages.base_path) +:+
          String "034" EmptyString).
  rewrite occurrences_after_insertion;
    try (vm_compute; reflexivity); try discriminate.
  change (occurrences FixPackages.base_path
            ("import (" +:+ NL +:+ TAB +:+ DQ +:+ FixPackages.base_path))
    with 1.
  lia.
Qed.

Lemma move_import_adds_base_again_witness :
  contains "import (" Sample.with_base = true /\
  occurrences FixPackages.base_path
    (MoveAndUpdate.add_base_import Sample.with_base) =
  occurrences FixPackages.base_path Sample.with_base +
  occurrences "import (" Sample.with_base.
Proof.
  split; [vm_compute; reflexivity|].
  apply (move_import_adds_base_again Sample.with_base).
  vm_compute. reflexivity.
Defined.

End Counting.

(** ** The rewrite of fix_packages.py, a second time *)

Section Twice.

Import Text.

(** Where [k+] ends the pattern, it fails only where no character of the
    class stands. *)
Lemma plus_from_none ml k g s n acc :
  plus_from ml [] false k g s n acc = None -> stops k s = true.
Proof.
  destruct s as [|d s]; [reflexivity|]. cbn [plus_from stops].
  destruct (Re.in_class k d); [|reflexivity].
  destruct (plus_from ml [] false k g s (S n) _); discriminate.
Qed.

(** Where it matches, it takes the whole stretch of the class. *)
Lemma plus_from_some ml k g s n acc r :
  plus_from ml [] false k g s n acc = Some r ->
  exists name rest, s = name +:+ rest /\ name <> EmptyString /\
    every (Re.in_class k) name = true /\ stops k rest = true.
Proof.
  revert n acc r. induction s as [|d s IH]; intros n acc r H; [discriminate|].
  cbn [plus_from] in H. destruct (Re.in_class k d) eqn:Hd; [|discriminate].
  destruct (plus_from ml [] false k g s (S n) (acc +:+ String d EmptyString))
    as [r'|] eqn:E.
  - destruct (IH _ _ _ E) as (name & rest & -> & Hne & Ha & Hs).
    exists (String d name), rest. rewrite app_cons.
    split; [reflexivity|]. split; [discriminate|].
    cbn [every]. rewrite Hd, Ha. split; [reflexivity|exact Hs].
  - apply plus_from_none in E. exists (String d EmptyString), s.
    split; [reflexivity|]. split; [discriminate|].
    cbn [every]. rewrite Hd. split; [reflexivity|exact E].
Qed.

Lemma package_clause_match x :
  Re.match_here false FixPackages.package_clause None x 0 None =
  if startswith "package " x
  then plus_from false [] false Re.WordChar None (slice_from 8 x) 8
         EmptyString
  else None.
Proof.
  unfold FixPackages.package_clause. cbn [Re.match_here Re.at_bol].
  rewrite match_here_lit_app. reflexivity.
Qed.

Lemma fix_package_no_clause pkg x :
  Re.match_here false FixPackages.package_clause None x 0 None = None ->
  FixPackages.fix_package pkg x = x.
Proof.
  intros H. unfold FixPackages.fix_package, Re.sub.
  destruct x as [|c x]; [cbn [Re.sub_from]; by rewrite H|].
  rewrite sub_from_miss by exact H. f_equal.
  apply sub_from_no_match, bol_not_found.
Qed.

Lemma not_opening x :
  opening x = false ->
  Re.match_here false FixPackages.package_clause None x 0 None = None.
Proof.
  unfold opening. rewrite package_clause_match.
  destruct (startswith "package " x); [|reflexivity]. cbn [andb].
  intros H. apply negb_false_iff in H.
  destruct (slice_from 8 x) as [|d r]; [reflexivity|].
  cbn [stops] in H. apply negb_true_iff in H.
  cbn [plus_from]. rewrite H. reflexivity.
Qed.

(** What the package step leaves: the text as it was, with no clause at
    its start, or the clause of the package and what followed the name. *)
Lemma fix_package_cases pkg s :
  (FixPackages.fix_package pkg s = s /\ opening s = false) \/
  (exists rest, FixPackages.fix_package pkg s = "package " +:+ pkg +:+ rest /\
                stops Re.WordChar rest = true).
Proof.
  destruct (opening s) eqn:Ho.
  - right. unfold opening in Ho. apply andb_true_iff in Ho as [Hs Hw].
    apply negb_true_iff in Hw.
    destruct (plus_from false [] false Re.WordChar None (slice_from 8 s) 8
                EmptyString) as [r|] eqn:E.
    + destruct (plus_from_some _ _ _ _ _ _ _ E)
        as (name & rest & Hr & Hne & Ha & Hst).
      exists rest. split; [|exact Hst].
      apply startswith_split in Hs. cbn [String.length] in Hs.
      rewrite Hs, Hr. apply fix_package_opening; [|exact Hst].
      unfold is_name. apply andb_true_iff. split; [|exact Ha].
      apply negb_true_iff. by apply String.eqb_neq.
    + apply plus_from_none in E. congruence.
  - left. split; [|reflexivity]. by apply fix_package_no_clause, not_opening.
Qed.

(** The first match: the text before it is copied. *)
Lemma first_match ml p t prev s :
  Re.found_from ml p prev s = true ->
  exists a r n g, s = a +:+ r /\
    Re.sub_from ml p t 0 prev s =
      a +:+ Re.sub_from ml p t 0 (after prev a) r /\
    Re.match_here ml p (after prev a) r 0 None = Some (n, g).
Proof.
  revert prev. induction s as [|c s IH]; intros prev H.
  - cbn [Re.found_from] in H.
    destruct (Re.match_here ml p prev EmptyString 0 None) as [[n g]|] eqn:E;
      [|discriminate].
    by exists EmptyString, EmptyString, n, g.
  - cbn [Re.found_from] in H.
    destruct (Re.match_here ml p prev (String c s) 0 None) as [[n g]|] eqn:E.
    + by exists EmptyString, (String c s), n, g.
    + destruct (IH _ H) as (a & r & n & g & -> & Hsub & Hm).
      exists (String c a), r, n, g. rewrite app_cons.
      split; [reflexivity|]. rewrite <- (after_after prev).
      split; [|exact Hm]. rewrite sub_from_miss by exact E.
      rewrite Hsub. reflexivity.
Qed.

Lemma sub_from_at_match ml p t prev c r n g :
  Re.match_here ml p prev (String c r) 0 None = Some (n, g) ->
  exists z, Re.sub_from ml p t 0 prev (String c r) = Re.expand t g +:+ z.
Proof.
  intros H. cbn [Re.sub_from]. rewrite H. destruct n; eauto.
Qed.

Lemma match_starts ml p prev r n g :
  Re.match_here ml p prev r 0 None = Some (n, g) ->
  startswith (leading p) r = true.
Proof.
  intros H. destruct (startswith (leading p) r) eqn:E; [reflexivity|].
  rewrite match_here_leading in H by exact E. discriminate.
Qed.

(** The import step changes the text from an [import] on, if at all. *)
Lemma add_base_import_at_import s :
  FixPackages.add_base_import s = s \/
  exists a c c', s = a +:+ "import " +:+ c /\
    FixPackages.add_base_import s = a +:+ "import " +:+ c'.
Proof.
  unfold FixPackages.add_base_import.
  destruct (contains FixPackages.base_path s); [by left|]. cbn [negb].
  destruct (contains "import (" s) eqn:Ho.
  - right. destruct (first_occurrence _ _ Ho) as (a & b & -> & Hcl).
    rewrite replace_first by (discriminate || exact Hcl).
    exists a, (String "(" b). eexists. split; [reflexivity|].
    unfold FixPackages.import_open_base.
    change "import (" with ("import " +:+ "(") at 1.
    rewrite !app_assoc. reflexivity.
  - destruct (Re.search true FixPackages.single_import s) eqn:Hf;
      [|left; by apply sub_no_match].
    right. unfold Re.search in Hf. unfold Re.sub.
    destruct (first_match _ _ FixPackages.import_block _ _ Hf)
      as (a & r & n & g & -> & Hsub & Hm).
    pose proof (match_starts _ _ _ _ _ _ Hm) as Hs.
    apply startswith_split in Hs.
    change (leading FixPackages.single_import) with ("import " +:+ DQ) in Hs.
    destruct r as [|e r]; [discriminate|].
    destruct (sub_from_at_match _ _ FixPackages.import_block _ _ _ _ _ Hm)
      as [z Hz].
    rewrite Hsub, Hz. exists a. eexists. eexists.
    split; [rewrite Hs at 1; rewrite !app_assoc; reflexivity|].
    unfold FixPackages.import_block, FixPackages.import_open_base.
    cbn [Re.expand].
    change "import (" with ("import " +:+ "(").
    rewrite !app_assoc. reflexivity.
Qed.

Lemma opening_prefix u v v' :
  9 <= String.length u -> opening (u +:+ v) = opening (u +:+ v').
Proof.
  intros H.
  do 9 (destruct u as [|? u]; [cbn [String.length] in H; lia|]).
  reflexivity.
Qed.

Lemma opening_at_import a c c' :
  opening (a +:+ "import " +:+ c) = opening (a +:+ "import " +:+ c').
Proof.
  destruct a as [|x [|y a]].
  - reflexivity.
  - unfold opening. rewrite !app_cons. cbn [startswith String.append].
    rewrite !andb_false_r. reflexivity.
  - rewrite <- !(app_assoc _ "import "). apply opening_prefix.
    rewrite length_app. cbn [String.length]. lia.
Qed.

Lemma app_eq_split x y a b :
  x +:+ y = a +:+ b ->
  (exists u, a = x +:+ u /\ y = u +:+ b) \/
  (exists u, u <> EmptyString /\ x = a +:+ u /\ b = u +:+ y).
Proof.
  revert a. induction x as [|c x IH]; intros a H.
  - left. by exists a.
  - destruct a as [|d a].
    + right. exists (String c x). split; [discriminate|]. by split.
    + rewrite !app_cons in H. injection H as -> H.
      destruct (IH _ H) as [(u & -> & Hy)|(u & Hne & -> & Hb)].
      * left. by exists u.
      * right. by exists u.
Qed.

Lemma starts_inside_suffix x a u :
  u <> EmptyString -> agree x u = true -> starts_inside x (a +:+ u) = true.
Proof.
  intros Hne H. induction a as [|c a IH].
  - destruct u; [congruence|]. cbn [String.append starts_inside].
    rewrite H. reflexivity.
  - rewrite app_cons. cbn [starts_inside]. rewrite IH. apply orb_true_r.
Qed.

(** The rewrite of fix_packages.py done a second time changes nothing. *)
Lemma fix_packages_rewrite_twice pkg s :
  is_name pkg = true ->
  starts_inside "import " ("package " +:+ pkg) = false ->
  FixPackages.rewrite pkg (FixPackages.rewrite pkg s) =
  FixPackages.rewrite pkg s.
Proof.
  intros Hn Hin. unfold FixPackages.rewrite.
  assert (FixPackages.fix_package pkg
            (FixPackages.add_base_import (FixPackages.fix_package pkg s)) =
          FixPackages.add_base_import (FixPackages.fix_package pkg s)) as ->;
    [|apply base_import_once].
  destruct (fix_package_cases pkg s) as [[Heq Ho]|(rest & Heq & Hst)];
    rewrite Heq.
  - destruct (add_base_import_at_import s) as [->|(a & c & c' & Hs & ->)];
      [exact Heq|].
    apply fix_package_no_clause, not_opening.
    rewrite (opening_at_import a c' c), <- Hs. exact Ho.
  - destruct (add_base_import_at_import ("package " +:+ pkg +:+ rest))
      as [->|(a & c & c' & Hs & ->)].
    + by apply fix_package_opening.
    + rewrite <- (app_assoc "package " pkg) in Hs.
      apply app_eq_split in Hs as [(u & -> & Hr)|(u & Hne & Hp & Hb)].
      * rewrite !app_assoc.
        apply fix_package_opening; [exact Hn|].
        destruct u as [|e u].
        { subst rest. discriminate. }
        subst rest. exact Hst.
      * exfalso. rewrite Hp in Hin.
        rewrite starts_inside_suffix in Hin; [discriminate|exact Hne|].
        apply (startswith_agree _ _ rest). rewrite <- Hb.
        apply startswith_app.
Qed.

(** X18: the rewrite fix_packages.py applies to a unit, done a second time
    for the same package, changes nothing, for every text and every package
    name that is a word in which no [import] can begin (the ten names of
    the script are such). *)
Theorem fix_packages_rewrite_idempotent pkg s :
  is_name pkg = true ->
  starts_inside "import " ("package " +:+ pkg) = false ->
  FixPackages.rewrite pkg (FixPackages.rewrite pkg s) =
  FixPackages.rewrite pkg s.
Proof. apply fix_packages_rewrite_twice. Qed.

Lemma fix_packages_rewrite_idempotent_witness :
  is_name "drive" = true /\
  starts_inside "import " ("package " +:+ "drive") = false /\
  FixPackages.rewrite "drive" (FixPackages.rewrite "drive" Sample.licensed) =
  FixPackages.rewrite "drive" Sample.licensed.
Proof.
  split; [reflexivity|]. split; [reflexivity|].
  apply (fix_packages_rewrite_idempotent "drive" Sample.licensed);
    reflexivity.
Defined.

End Twice.

(** * Further properties of the runs *)

(** ** The entries of a directory *)

Section Entries.
Import Os Walk.
Implicit Types (t : tree) (p q : string) (d : disk).

Lemma first_component_no_slash s : has_char "/" (first_component s) = false.
Proof.
  induction s as [|c s IH]; [reflexivity|]. cbn [first_component].
  destruct (Ascii.eqb c "/") eqn:E; [reflexivity|].
  cbn [has_char]. rewrite Ascii.eqb_sym, E. exact IH.
Qed.

Lemma first_component_plain s :
  has_char "/" s = false -> first_component s = s.
Proof.
  induction s as [|c s IH]; [reflexivity|]. cbn [has_char first_component].
  intros H. apply orb_false_iff in H as [Hc Hs].
  rewrite Ascii.eqb_sym, Hc, (IH Hs). reflexivity.
Qed.

(** A name with a [/] goes on after its first component. *)
Lemma first_component_split s :
  has_char "/" s = true ->
  exists r, s = first_component s +:+ "/" +:+ r.
Proof.
  induction s as [|c s IH]; [discriminate|]. cbn [has_char first_component].
  destruct (Ascii.eqb c "/") eqn:E.
  - apply Ascii.eqb_eq in E. subst c. intros _. exists s. reflexivity.
  - rewrite Ascii.eqb_sym, E. cbn [orb]. intros H.
    destruct (IH H) as [r Hr]. exists r.
    rewrite app_cons. f_equal. exact Hr.
Qed.

Lemma elem_of_entries t p name :
  name ∈ entries t p <->
  exists k, is_Some (t !! k) /\ startswith (p +:+ "/") k = true /\
            name = first_component (below p k).
Proof.
  unfold entries. rewrite elem_of_remove_dups, list_elem_of_omap.
  split.
  - intros (k & Hk & H). apply elem_of_paths in Hk.
    destruct (startswith (p +:+ "/") k) eqn:E; [|discriminate].
    injection H as <-. exists k. auto.
  - intros (k & Hk & Hs & ->). exists k. split; [by apply elem_of_paths|].
    rewrite Hs. reflexivity.
Qed.

Lemma entries_no_slash t p name :
  name ∈ entries t p -> has_char "/" name = false.
Proof.
  rewrite elem_of_entries. intros (k & _ & _ & ->).
  apply first_component_no_slash.
Qed.

Lemma NoDup_entries t p : NoDup (entries t p).
Proof. apply NoDup_remove_dups. Qed.

Lemma below_join dir name : below dir (dir +:+ "/" +:+ name) = name.
Proof.
  unfold below. rewrite <- app_assoc. apply slice_from_app.
Qed.

Lemma startswith_join dir name :
  startswith (dir +:+ "/") (dir +:+ "/" +:+ name) = true.
Proof. rewrite <- app_assoc. apply startswith_app. Qed.

(** An entry that is not a directory is a file. *)
Lemma entry_is_file t dir name :
  name ∈ entries t dir -> is_dir t (dir +:+ "/" +:+ name) = false ->
  is_Some (t !! (dir +:+ "/" +:+ name)).
Proof.
  rewrite elem_of_entries. intros (k & Hk & Hs & ->) Hd.
  apply startswith_split in Hs. fold (below dir k) in Hs.
  set (b := below dir k) in *. clearbody b. subst k.
  destruct (has_char "/" b) eqn:E.
  - destruct (first_component_split _ E) as [r Hr].
    remember (first_component b) as c eqn:Hc. clear Hc. subst b.
    exfalso. apply not_true_iff_false in Hd. apply Hd.
    apply is_dir_spec. eexists. split; [exact Hk|].
    replace ((dir +:+ "/") +:+ c +:+ "/" +:+ r)
      with (((dir +:+ "/" +:+ c) +:+ "/") +:+ r)
      by (rewrite !app_assoc; reflexivity).
    apply startswith_app.
  - rewrite first_component_plain by exact E.
    rewrite app_assoc in Hk. exact Hk.
Qed.

(** A file directly in a directory is one of its entries. *)
Lemma file_is_entry t dir name :
  has_char "/" name = false -> is_Some (t !! (dir +:+ "/" +:+ name)) ->
  name ∈ entries t dir.
Proof.
  intros Hn Hk. apply elem_of_entries. exists (dir +:+ "/" +:+ name).
  split; [exact Hk|]. split; [apply startswith_join|].
  rewrite below_join, first_component_plain; [reflexivity|exact Hn].
Qed.

(** What is a directory depends on the paths of the files only. *)
Lemma is_dir_same_files t t' p :
  (forall k, is_Some (t !! k) <-> is_Some (t' !! k)) ->
  is_dir t p = is_dir t' p.
Proof.
  intros H. apply eq_true_iff_eq. rewrite !is_dir_spec.
  split; intros (k & Hk & Hs); exists k; (split; [by apply H|exact Hs]).
Qed.

Lemma entries_same_files t t' p name :
  (forall k, is_Some (t !! k) <-> is_Some (t' !! k)) ->
  name ∈ entries t p <-> name ∈ entries t' p.
Proof.
  intros H. rewrite !elem_of_entries.
  split; intros (k & Hk & Hs); exists k; (split; [by apply H|exact Hs]).
Qed.

End Entries.

(** ** What the walks leave alone *)

Section Walks.
Import Os Script Walk.
Implicit Types (t : tree) (p q : string) (d : disk).

Lemma no_slash_head name : has_char "/" name = false -> startswith "/" name = false.
Proof.
  destruct name as [|c name]; [reflexivity|]. cbn [has_char startswith].
  intros H. apply orb_false_iff in H as [-> _]. reflexivity.
Qed.

Lemma join_entry dir name :
  String.eqb dir EmptyString || endswith dir "/" = false ->
  has_char "/" name = false ->
  join dir name = dir +:+ "/" +:+ name.
Proof.
  intros Hd Hn. unfold join. rewrite (no_slash_head _ Hn), Hd. reflexivity.
Qed.

Lemma in_dir_join (ok : string -> bool) dir name :
  has_char "/" name = false -> ok name = true ->
  in_dir ok dir (dir +:+ "/" +:+ name) = true.
Proof.
  intros Hn Hok. unfold in_dir.
  rewrite startswith_join, below_join, Hn, Hok. reflexivity.
Qed.

Lemma visited_false ok dirs p dir :
  visited ok dirs p = false -> dir ∈ dirs -> in_dir ok dir p = false.
Proof.
  unfold visited. intros H Hin.
  destruct (in_dir ok dir p) eqn:E; [|reflexivity].
  rewrite <- H. symmetry. apply existsb_exists. exists dir.
  split; [by apply list_elem_of_In|exact E].
Qed.

(** The names [os.listdir] returns have no [/]. *)
Lemma keeps_listdir_then {B} p q (k : list string -> M B) :
  (forall names, (forall n, n ∈ names -> has_char "/" n = false) ->
                 keeps p (k names)) ->
  keeps p (bind (listdir q) k).
Proof.
  intros H t. unfold bind, listdir.
  destruct (t !! q); [reflexivity|].
  destruct (is_dir t q); [|reflexivity].
  apply H. intros n. apply entries_no_slash.
Qed.

Lemma keeps_read_write d p q (f : string -> string) :
  p <> q -> keeps p (bind (read_file q) (fun c => write_file d q (f c))).
Proof.
  intros Hne. apply keeps_bind; [apply keeps_read_file|].
  intros c. by apply keeps_write_file.
Qed.

Lemma keeps_rewrite_go_files d dir f p :
  String.eqb dir EmptyString || endswith dir "/" = false ->
  in_dir go_file dir p = false ->
  keeps p (rewrite_go_files d dir f).
Proof.
  intros Hd Hp. unfold rewrite_go_files.
  apply keeps_bind; [apply keeps_path_exists|].
  intros [|]; [|apply keeps_ret]. cbn [negb].
  apply keeps_listdir_then. intros names Hn.
  apply keeps_for_each. intros name Hin.
  destruct (endswith name ".go") eqn:E; [|apply keeps_ret]. cbn [negb].
  rewrite join_entry by auto.
  apply keeps_read_write. intros ->.
  rewrite in_dir_join in Hp; [discriminate|by apply Hn|exact E].
Qed.

Lemma packages_plain :
  forallb (fun dir => negb (String.eqb dir EmptyString || endswith dir "/"))
    (FixCliImports.packages ++ FixPackages.packages.*2 ++ update_refs_dirs)
  = true.
Proof. vm_compute. reflexivity. Qed.

Lemma package_plain dir :
  dir ∈ FixCliImports.packages ++ FixPackages.packages.*2 ++ update_refs_dirs ->
  String.eqb dir EmptyString || endswith dir "/" = false.
Proof.
  intros H. pose proof packages_plain as P. rewrite forallb_forall in P.
  apply list_elem_of_In, P, negb_true_iff in H. exact H.
Qed.

(** X8: fix_cli_imports.py changes no file but the Go sources that lie
    directly in one of its ten package directories: every other path holds
    after the run what it held before, whatever the disk does and whether
    the run finishes or raises. *)
Theorem fix_cli_imports_changes_only_package_sources d t p :
  visited go_source FixCliImports.packages p = false ->
  final (fix_cli_imports d) t !! p = t !! p.
Proof.
  intros Hp. revert t. fold (keeps p (fix_cli_imports d)).
  unfold fix_cli_imports. apply keeps_for_each. intros pkg Hpkg.
  apply keeps_bind; [apply keeps_path_exists|].
  intros [|]; [|apply keeps_ret].
  apply keeps_listdir_then. intros names Hn.
  apply keeps_for_each. intros name Hin.
  destruct (endswith name ".go" && negb (endswith name "_test.go")) eqn:E;
    [|apply keeps_ret].
  rewrite join_entry;
    [|apply package_plain, elem_of_app; by left|by apply Hn].
  unfold fix_file. apply keeps_bind; [apply keeps_read_file|].
  intros c. destruct (_ || _); [apply keeps_ret|].
  apply keeps_write_file. intros ->.
  pose proof (visited_false _ _ _ pkg Hp Hpkg) as Hv.
  rewrite in_dir_join in Hv; [discriminate|by apply Hn|exact E].
Qed.

Lemma fix_cli_imports_changes_only_package_sources_witness :
  visited go_source FixCliImports.packages "internal/cli/root.go" = false /\
  final (fix_cli_imports (Sample.failing 3)) Sample.with_root
    !! "internal/cli/root.go" =
  Sample.with_root !! "internal/cli/root.go".
Proof.
  split; [vm_compute; reflexivity|].
  apply (fix_cli_imports_changes_only_package_sources (Sample.failing 3)
           Sample.with_root "internal/cli/root.go").
  vm_compute. reflexivity.
Defined.

(** X9: update_refs.py changes no file but the [.go] files that lie
    directly in one of its ten package directories, whatever the disk does
    and whether the run finishes or raises. *)
Theorem update_refs_changes_only_package_files d t p :
  visited go_file update_refs_dirs p = false ->
  final (update_refs d) t !! p = t !! p.
Proof.
  intros Hp. revert t. fold (keeps p (update_refs d)).
  unfold update_refs. apply keeps_for_each. intros pkg Hpkg.
  assert ("internal/cli/" +:+ pkg ∈ update_refs_dirs) as Hin
    by (apply list_elem_of_fmap; by exists pkg).
  apply keeps_rewrite_go_files.
  - apply package_plain. rewrite !elem_of_app. auto.
  - by apply (visited_false _ _ _ _ Hp).
Qed.

Lemma update_refs_changes_only_package_files_witness :
  visited go_file update_refs_dirs "internal/cli/root.go" = false /\
  final (update_refs (Sample.failing 3)) Sample.with_root
    !! "internal/cli/root.go" =
  Sample.with_root !! "internal/cli/root.go".
Proof.
  split; [vm_compute; reflexivity|].
  apply (update_refs_changes_only_package_files (Sample.failing 3)
           Sample.with_root "internal/cli/root.go").
  vm_compute. reflexivity.
Defined.

(** X10: fix_packages.py changes no file but the [.go] files that lie
    directly in one of its ten package directories, whatever the disk does
    and whether the run finishes or raises. *)
Theorem fix_packages_changes_only_package_files d t p :
  visited go_file FixPackages.packages.*2 p = false ->
  final (fix_packages d) t !! p = t !! p.
Proof.
  intros Hp. revert t. fold (keeps p (fix_packages d)).
  unfold fix_packages. apply keeps_for_each. intros [name dir] Hpkg.
  assert (dir ∈ FixPackages.packages.*2) as Hin
    by (apply list_elem_of_fmap; by exists (name, dir)).
  apply keeps_rewrite_go_files.
  - apply package_plain. rewrite !elem_of_app. auto.
  - by apply (visited_false _ _ _ _ Hp).
Qed.

Lemma fix_packages_changes_only_package_files_witness :
  visited go_file FixPackages.packages.*2 "internal/cli/root.go" = false /\
  final (fix_packages (Sample.failing 3)) Sample.with_root
    !! "internal/cli/root.go" =
  Sample.with_root !! "internal/cli/root.go".
Proof.
  split; [vm_compute; reflexivity|].
  apply (fix_packages_changes_only_package_files (Sample.failing 3)
           Sample.with_root "internal/cli/root.go").
  vm_compute. reflexivity.
Defined.

(** ** No file is created or deleted *)

Lemma same_files_ret {A} (a : A) : same_files (ret a).
Proof. intros t k. reflexivity. Qed.

Lemma same_files_bind {A B} (m : M A) (k : A -> M B) :
  same_files m -> (forall a, same_files (k a)) -> same_files (bind m k).
Proof.
  intros Hm Hk t q. unfold bind. specialize (Hm t q).
  destruct (m t) as [[a|e] t']; [|exact Hm].
  rewrite (Hk a t' q). exact Hm.
Qed.

Lemma same_files_for_each {A} (xs : list A) (body : A -> M unit) :
  (forall x, x ∈ xs -> same_files (body x)) -> same_files (for_each xs body).
Proof.
  induction xs as [|x xs IH]; intros H; [apply same_files_ret|].
  cbn [for_each]. apply same_files_bind; [apply H; by left|].
  intros _. apply IH. intros y Hy. apply H. by right.
Qed.

Lemma same_files_path_exists p : same_files (path_exists p).
Proof. intros t k. reflexivity. Qed.

Lemma same_files_listdir p : same_files (listdir p).
Proof.
  intros t k. unfold listdir. destruct (t !! p); [reflexivity|].
  destruct (is_dir t p); reflexivity.
Qed.

(** A file that could be read is there: the write puts no new path into
    the tree, also when it fails. *)
Lemma same_files_read_write d q (g : string -> M unit) :
  (forall c, g c = ret () \/ exists s, g c = write_file d q s) ->
  same_files (bind (read_file q) g).
Proof.
  intros Hg t k. unfold bind, read_file.
  destruct (t !! q) as [c|] eqn:E; [|by destruct (is_dir t q)].
  destruct (Hg c) as [->|[s ->]]; [reflexivity|].
  unfold write_file. destruct (is_dir t q); [reflexivity|].
  destruct (d q s) as [kept|[partial|]]; cbn [snd]; [| |reflexivity];
    rewrite lookup_insert_is_Some; (split; [intros [<-|[_ H]]; eauto|auto]);
    destruct (decide (q = k)); auto.
Qed.

Lemma same_files_rewrite_go_files d dir f :
  same_files (rewrite_go_files d dir f).
Proof.
  unfold rewrite_go_files.
  apply same_files_bind; [apply same_files_path_exists|].
  intros [|]; [|apply same_files_ret]. cbn [negb].
  apply same_files_bind; [apply same_files_listdir|]. intros names.
  apply same_files_for_each. intros name _.
  destruct (negb _); [apply same_files_ret|].
  apply (same_files_read_write d). intros c. right. eauto.
Qed.

Lemma same_files_dom {A} (m : M A) t :
  same_files m -> dom (final m t) = dom t.
Proof.
  intros H. apply set_eq. intros k. rewrite !elem_of_dom. apply H.
Qed.

(** X11: fix_cli_imports.py, fix_packages.py and update_refs.py neither
    create nor delete a file: the paths of the files are the same after a
    run as before, whatever the disk does and whether the run finishes or
    raises. *)
Theorem fix_scripts_keep_the_files d t :
  dom (final (fix_cli_imports d) t) = dom t /\
  dom (final (fix_packages d) t) = dom t /\
  dom (final (update_refs d) t) = dom t.
Proof.
  repeat apply conj; apply same_files_dom.
  - apply same_files_for_each. intros pkg _.
    apply same_files_bind; [apply same_files_path_exists|].
    intros [|]; [|apply same_files_ret].
    apply same_files_bind; [apply same_files_listdir|]. intros names.
    apply same_files_for_each. intros name _.
    destruct (_ && _); [|apply same_files_ret].
    apply (same_files_read_write d). intros c.
    destruct (_ || _); [by left|right; eauto].
  - apply same_files_for_each. intros [name dir] _.
    apply same_files_rewrite_go_files.
  - apply same_files_for_each. intros pkg _.
    apply same_files_rewrite_go_files.
Qed.

End Walks.

(** ** The walk over one directory *)

Section Suffixes.



Lemma has_char_app_r c a b : has_char c b = true -> has_char c (a +:+ b) = true.
Proof.
  intros H. induction a as [|e a IH]; [exact H|].
  rewrite app_cons. cbn [has_char]. rewrite IH. apply orb_true_r.
Qed.



Lemma join_inj dir name name' :
  dir +:+ "/" +:+ name = dir +:+ "/" +:+ name' -> name = name'.
Proof.
  induction dir as [|c s IH]; intros H.
  - by injection H.
  - rewrite !app_cons in H. injection H as H. by apply IH.
Qed.

End Suffixes.

Section Visit.
Import Os Script Walk.
Implicit Types (t : tree) (p q : string) (d : disk).

Variables (ok : string -> bool) (f : string -> string) (dir : string)
  (body : string -> M unit).

Hypothesis body_hit : forall name t c,
  has_char "/" name = false -> ok name = true ->
  t !! (dir +:+ "/" +:+ name) = Some c ->
  is_dir t (dir +:+ "/" +:+ name) = false ->
  body name t = (Ok (), <[dir +:+ "/" +:+ name := f c]> t).

Hypothesis body_miss : forall name t, ok name = false -> body name t = (Ok (), t).

Lemma is_dir_insert t k v p :
  is_Some (t !! k) -> is_dir (<[k := v]> t) p = is_dir t p.
Proof.
  intros Hk. apply is_dir_same_files. intros q.
  rewrite lookup_insert_is_Some. split.
  - intros [Hq|[_ Hq]]; [subst q; exact Hk|exact Hq].
  - intros H. destruct (decide (k = q)); auto.
Qed.

Lemma visit_loop names t :
  NoDup names ->
  (forall n, n ∈ names -> has_char "/" n = false) ->
  (forall n, n ∈ names -> ok n = true ->
     is_Some (t !! (dir +:+ "/" +:+ n)) /\
     is_dir t (dir +:+ "/" +:+ n) = false) ->
  exists t', for_each names body t = (Ok (), t') /\
    forall k, t' !! k =
      if existsb (fun n => ok n && String.eqb k (dir +:+ "/" +:+ n)) names
      then f <$> t !! k else t !! k.
Proof.
  revert t. induction names as [|n names IH]; intros t Hnd Hsl Hfile.
  - exists t. split; [reflexivity|]. intros k. reflexivity.
  - apply NoDup_cons in Hnd as [Hn Hnd].
    assert (forall m, m ∈ names -> has_char "/" m = false) as Hsl'
      by (intros m Hm; apply Hsl; by right).
    cbn [for_each]. unfold bind. destruct (ok n) eqn:Hok.
    + destruct (Hfile n) as [[c Hc] Hd]; [by left|exact Hok|].
      rewrite (body_hit n t c); [|apply Hsl; by left|exact Hok|exact Hc|
        exact Hd].
      destruct (IH (<[dir +:+ "/" +:+ n := f c]> t)) as (t' & Hrun & Ht');
        [exact Hnd|exact Hsl'| |].
      { intros m Hm Hokm. destruct (Hfile m) as [Hs Hdm];
          [by right|exact Hokm|].
        rewrite is_dir_insert by eauto. split; [|exact Hdm].
        rewrite lookup_insert_is_Some.
        destruct (decide (dir +:+ "/" +:+ n = dir +:+ "/" +:+ m)); auto. }
      exists t'. split; [exact Hrun|]. intros k. rewrite Ht'.
      cbn [existsb]. rewrite Hok. cbn [andb].
      destruct (String.eqb k (dir +:+ "/" +:+ n)) eqn:Ek.
      * apply String.eqb_eq in Ek. subst k. cbn [orb].
        replace (existsb _ names) with false.
        { rewrite lookup_insert, decide_True by reflexivity.
          rewrite Hc. reflexivity. }
        symmetry. apply not_true_iff_false. intros H.
        apply existsb_exists in H as (m & Hm & H).
        apply andb_true_iff in H as [_ H]. apply String.eqb_eq in H.
        apply join_inj in H. subst m. apply Hn. by apply list_elem_of_In.
      * apply String.eqb_neq in Ek. cbn [orb].
        rewrite lookup_insert_ne by congruence. reflexivity.
    + rewrite (body_miss n t Hok).
      destruct (IH t) as (t' & Hrun & Ht'); [exact Hnd|exact Hsl'| |].
      { intros m Hm. apply Hfile. by right. }
      exists t'. split; [exact Hrun|]. intros k. rewrite Ht'.
      cbn [existsb]. rewrite Hok. reflexivity.
Qed.

Lemma in_dir_spec k :
  in_dir ok dir k = true ->
  k = dir +:+ "/" +:+ below dir k /\ has_char "/" (below dir k) = false /\
  ok (below dir k) = true.
Proof.
  unfold in_dir. intros H. apply andb_true_iff in H as [H Hok].
  apply andb_true_iff in H as [Hs Hn]. apply negb_true_iff in Hn.
  apply startswith_split in Hs. fold (below dir k) in Hs.
  rewrite app_assoc in Hs. auto.
Qed.

(** [os.listdir] and the loop over the names it returns. *)
Lemma walk_dir t :
  ready_here ok dir t -> is_dir t dir = true ->
  exists t', bind (listdir dir) (fun names => for_each names body) t
             = (Ok (), t') /\
    forall k, t' !! k = if in_dir ok dir k then f <$> t !! k else t !! k.
Proof.
  intros [Hf Hr] Hd. unfold bind, listdir. rewrite Hf, Hd.
  destruct (visit_loop (entries t dir) t) as (t' & Hrun & Ht').
  - apply NoDup_entries.
  - intros n. apply entries_no_slash.
  - intros n Hn Hok. split; [|by apply Hr].
    apply entry_is_file; [exact Hn|by apply Hr].
  - exists t'. split; [exact Hrun|]. intros k. rewrite Ht'.
    destruct (existsb _ _) eqn:E.
    + apply existsb_exists in E as (n & Hn & E).
      apply andb_true_iff in E as [Hok E]. apply String.eqb_eq in E.
      subst k. rewrite in_dir_join; [reflexivity| |exact Hok].
      apply (entries_no_slash t dir). by apply list_elem_of_In.
    + destruct (in_dir ok dir k) eqn:Ei; [|reflexivity].
      destruct (t !! k) as [c|] eqn:Ek; [|reflexivity].
      exfalso. apply in_dir_spec in Ei as (Hk & Hsl & Hok).
      apply not_true_iff_false in E. apply E, existsb_exists.
      exists (below dir k). split.
      * apply list_elem_of_In, file_is_entry; [exact Hsl|].
        rewrite <- Hk, Ek. eauto.
      * rewrite Hok, <- Hk, String.eqb_refl. reflexivity.
Qed.

(** Nothing is to be done where the directory does not exist. *)
Lemma walk_skip t k :
  exists_in t dir = false -> in_dir ok dir k = true -> t !! k = None.
Proof.
  intros He Hi. destruct (t !! k) as [c|] eqn:Ek; [|reflexivity].
  exfalso. apply not_true_iff_false in He. apply He, exists_in_spec.
  right. exists k. split; [eauto|].
  unfold in_dir in Hi. apply andb_true_iff in Hi as [Hi _].
  apply andb_true_iff in Hi as [Hi _]. exact Hi.
Qed.

End Visit.

(** ** The walk over the package directories *)

Section Tour.
Import Os Script Walk.
Implicit Types (t : tree) (p q : string) (d : disk).

(** A path lies directly in one directory only. *)
Lemma direct_parent dir dir' r r' :
  dir +:+ "/" +:+ r = dir' +:+ "/" +:+ r' ->
  has_char "/" r = false -> has_char "/" r' = false -> dir = dir'.
Proof.
  revert dir'. induction dir as [|c dir IH]; intros dir' H Hr Hr'.
  - destruct dir' as [|c' dir']; [reflexivity|].
    change (EmptyString +:+ "/" +:+ r) with (String "/" r) in H.
    rewrite app_cons in H. injection H as _ H. subst r.
    rewrite has_char_app_r in Hr; [discriminate|reflexivity].
  - destruct dir' as [|c' dir'].
    + change (EmptyString +:+ "/" +:+ r') with (String "/" r') in H.
      rewrite app_cons in H. injection H as _ H. subst r'.
      rewrite has_char_app_r in Hr'; [discriminate|reflexivity].
    + rewrite !app_cons in H. injection H as -> H. f_equal.
      by apply IH.
Qed.

Lemma in_dir_one ok dir dir' k :
  in_dir ok dir k = true -> in_dir ok dir' k = true -> dir = dir'.
Proof.
  intros H H'. apply in_dir_spec in H as (Hk & Hr & _).
  apply in_dir_spec in H' as (Hk' & Hr' & _).
  apply (direct_parent dir dir' (below dir k) (below dir' k)); congruence.
Qed.

Lemma ready_here_same_files ok dir t t' :
  (forall k, is_Some (t' !! k) <-> is_Some (t !! k)) ->
  ready_here ok dir t -> ready_here ok dir t'.
Proof.
  intros H [Hf Hr]. split.
  - apply eq_None_not_Some. rewrite H, Hf. by intros [? ?].
  - intros name Hn Hok. rewrite (is_dir_same_files t' t) by exact H.
    apply Hr; [|exact Hok]. by apply (entries_same_files t' t).
Qed.

Lemma ready_spec ok dirs t :
  ready ok dirs t = true -> forall dir, dir ∈ dirs -> ready_here ok dir t.
Proof.
  unfold ready. rewrite forallb_forall. intros H dir Hd.
  apply list_elem_of_In, H, andb_true_iff in Hd as [Hf Hr].
  apply negb_true_iff, bool_decide_eq_false in Hf.
  split; [by apply eq_None_not_Some|].
  rewrite forallb_forall in Hr. intros name Hn Hok.
  apply list_elem_of_In, Hr, negb_true_iff in Hn.
  rewrite Hok in Hn. exact Hn.
Qed.

Variables (X : Type) (ok : string -> bool) (dir_of : X -> string)
  (fn : X -> string -> string) (step : X -> M unit) (plain : X -> Prop).

Hypothesis step_spec : forall x t,
  plain x -> ready_here ok (dir_of x) t ->
  exists t', step x t = (Ok (), t') /\
    forall k, t' !! k =
      if in_dir ok (dir_of x) k then fn x <$> t !! k else t !! k.

Lemma tour xs t :
  (forall x, x ∈ xs -> plain x) ->
  NoDup (dir_of <$> xs) ->
  (forall x, x ∈ xs -> ready_here ok (dir_of x) t) ->
  exists t', for_each xs step t = (Ok (), t') /\
    forall k, t' !! k =
      match find (fun x => in_dir ok (dir_of x) k) xs with
      | Some x => fn x <$> t !! k
      | None => t !! k
      end.
Proof.
  intros Hp. revert t. induction xs as [|x xs IH]; intros t Hnd Hr.
  - exists t. split; reflexivity.
  - rewrite fmap_cons in Hnd. apply NoDup_cons in Hnd as [Hx Hnd].
    destruct (step_spec x t) as (t1 & Hs & Ht1);
      [apply Hp; by left|apply Hr; by left|].
    assert (forall k, is_Some (t1 !! k) <-> is_Some (t !! k)) as Hsame.
    { intros k. rewrite Ht1. destruct (in_dir _ _ _); [|reflexivity].
      apply fmap_is_Some. }
    destruct (IH (fun y Hy => Hp y (list_elem_of_further _ _ _ Hy)) t1)
      as (t' & Hrun & Ht'); [exact Hnd| |].
    { intros y Hy. apply (ready_here_same_files _ _ t); [exact Hsame|].
      apply Hr. by right. }
    exists t'. cbn [for_each]. unfold bind. rewrite Hs.
    split; [exact Hrun|]. intros k. rewrite Ht', Ht1. cbn [find].
    destruct (in_dir ok (dir_of x) k) eqn:E; [|reflexivity].
    destruct (find _ xs) as [y|] eqn:Ef; [|reflexivity].
    exfalso. apply find_some in Ef as [Hy Ey].
    apply Hx. rewrite (in_dir_one _ _ _ _ E Ey).
    apply list_elem_of_fmap. exists y. split; [reflexivity|].
    by apply list_elem_of_In.
Qed.

End Tour.

Section InPlace.
Import Os Script Walk.
Implicit Types (t : tree) (p q : string) (d : disk).


Lemma exists_in_dir t dir :
  t !! dir = None -> exists_in t dir = is_dir t dir.
Proof.
  intros H. unfold exists_in. rewrite H, bool_decide_eq_false_2;
    [reflexivity|]. by intros [? ?].
Qed.

Lemma rewrite_go_files_spec dir f t :
  String.eqb dir EmptyString || endswith dir "/" = false ->
  ready_here go_file dir t ->
  exists t', rewrite_go_files faithful dir f t = (Ok (), t') /\
    forall k, t' !! k = if in_dir go_file dir k then f <$> t !! k else t !! k.
Proof.
  intros Hd Hr. unfold rewrite_go_files.
  unfold bind at 1. unfold path_exists.
  destruct (exists_in t dir) eqn:He; cbn [negb].
  - apply (walk_dir go_file f); [| |exact Hr|].
    + intros name t1 c Hn Hok Hc Hdir. unfold go_file in Hok.
      rewrite Hok. cbn [negb]. rewrite join_entry by assumption.
      unfold bind, read_file. rewrite Hc.
      unfold write_file. rewrite Hdir. reflexivity.
    + intros name t1 Hok. unfold go_file in Hok. rewrite Hok. reflexivity.
    + rewrite <- He. symmetry. apply exists_in_dir. apply Hr.
  - exists t. split; [reflexivity|]. intros k.
    destruct (in_dir go_file dir k) eqn:E; [|reflexivity].
    rewrite (walk_skip go_file dir t k He E). reflexivity.
Qed.




End InPlace.

Section InPlace2.
Import Os Script Walk.
Implicit Types (t : tree) (p q : string) (d : disk).



Lemma fix_packages_step (e : string * string) t :
  e.2 ∈ FixPackages.packages.*2 ->
  ready_here go_file e.2 t ->
  exists t',
    (let '(pkg_name, pkg_path) := e in
     rewrite_go_files faithful pkg_path (FixPackages.rewrite pkg_name)) t
    = (Ok (), t') /\
    forall k, t' !! k =
      if in_dir go_file e.2 k
      then FixPackages.rewrite e.1 <$> t !! k else t !! k.
Proof.
  destruct e as [n p]. cbn [fst snd]. intros H.
  apply rewrite_go_files_spec, package_plain.
  rewrite !elem_of_app. auto.
Qed.



(** fix_packages.py on a disk that stores what is written. *)
Lemma fix_packages_run t :
  (forall dir, dir ∈ FixPackages.packages.*2 -> ready_here go_file dir t) ->
  exists t', fix_packages faithful t = (Ok (), t') /\
    forall k, t' !! k =
      match find (fun e => in_dir go_file e.2 k) FixPackages.packages with
      | Some e => FixPackages.rewrite e.1 <$> t !! k
      | None => t !! k
      end.
Proof.
  intros Hr.
  destruct (tour (string * string) go_file snd
              (fun e => FixPackages.rewrite e.1)
              (fun '(pkg_name, pkg_path) =>
                 rewrite_go_files faithful pkg_path
                   (FixPackages.rewrite pkg_name))
              (fun e => e.2 ∈ FixPackages.packages.*2)
              fix_packages_step
              FixPackages.packages t)
    as (t' & Hrun & Ht').
  - intros e He. apply list_elem_of_fmap. by exists e.
  - apply (bool_decide_unpack _). vm_compute. reflexivity.
  - intros e He. apply Hr. apply list_elem_of_fmap. by exists e.
  - exists t'. split; [exact Hrun|exact Ht'].
Qed.



End InPlace2.

(** ** The loop of move_and_update.py where every turn runs through *)

Section MoveRuns.
Import Os Script Moves.
Implicit Types (t : tree) (p q : string) (d : disk) (e : string * string).

Lemma mapping_apart :
  forallb (fun e =>
    negb (String.eqb (src_of e.1) (dst_of e.1 e.2)) &&
    forallb (fun e' => same_entry e e' || apart e e')
      MoveAndUpdate.file_mapping)
    MoveAndUpdate.file_mapping = true.
Proof. vm_compute. reflexivity. Qed.

Lemma NoDup_mapping : NoDup MoveAndUpdate.file_mapping.
Proof. apply (bool_decide_unpack _). vm_compute. reflexivity. Qed.

Lemma apart_spec e e' :
  e ∈ MoveAndUpdate.file_mapping -> e' ∈ MoveAndUpdate.file_mapping ->
  e <> e' -> apart e e' = true.
Proof.
  intros He He' Hne. pose proof mapping_apart as H.
  rewrite forallb_forall in H.
  apply list_elem_of_In, H, andb_true_iff in He as [_ He].
  rewrite forallb_forall in He.
  apply list_elem_of_In, He, orb_true_iff in He' as [Hs|Ha]; [|exact Ha].
  exfalso. apply Hne. unfold same_entry in Hs.
  apply andb_true_iff in Hs as [H1 H2].
  apply String.eqb_eq in H1, H2. destruct e, e'. simpl in *. congruence.
Qed.

Lemma can_move_spec t e :
  can_move t e = true -> exists_in t (src_of e.1) = true ->
  is_Some (t !! src_of e.1) /\ t !! join MoveAndUpdate.cli_dir e.2 = None /\
  is_dir t (dst_of e.1 e.2) = false.
Proof.
  unfold can_move. intros H Hex. rewrite Hex in H. cbn [negb orb] in H.
  apply andb_true_iff in H as [H H3]. apply andb_true_iff in H as [H1 H2].
  apply bool_decide_eq_true in H1.
  apply negb_true_iff, bool_decide_eq_false in H2.
  apply negb_true_iff in H3. split; [exact H1|].
  split; [by apply eq_None_not_Some|exact H3].
Qed.

(** One turn on a disk that stores what is written. *)
Lemma move_one_faithful t e :
  e ∈ MoveAndUpdate.file_mapping -> can_move t e = true ->
  if exists_in t (src_of e.1)
  then exists c, t !! src_of e.1 = Some c /\
         move_one faithful e t =
         (Ok (), delete (src_of e.1)
                   (<[dst_of e.1 e.2 := MoveAndUpdate.rewrite e.2 c]> t))
  else move_one faithful e t = (Ok (), t).
Proof.
  intros He Hc. destruct (exists_in t (src_of e.1)) eqn:Hex.
  - destruct (can_move_spec t e Hc Hex) as ([c Hs] & Hd & Hdir).
    exists c. split; [exact Hs|]. destruct e as [filename pkg].
    cbn [fst snd] in *. unfold move_one, bind, path_exists.
    fold (dst_of filename pkg). rewrite Hex.
    unfold makedirs. rewrite Hd. unfold read_file. rewrite Hs.
    unfold write_file, faithful. rewrite Hdir.
    unfold remove. rewrite lookup_insert_ne, Hs; [reflexivity|].
    intros Heq. destruct (mapping_dst _ He) as [_ Hne]. by apply Hne.
  - destruct e as [filename pkg]. cbn [fst snd] in *.
    unfold move_one, bind, path_exists. rewrite Hex. reflexivity.
Qed.

Lemma lookup_moved t s dd v k :
  delete s (<[dd := v]> t) !! k =
  if decide (s = k) then None
  else if decide (dd = k) then Some v else t !! k.
Proof.
  rewrite lookup_delete. case_decide; [reflexivity|].
  rewrite lookup_insert. reflexivity.
Qed.

Lemma is_dir_moved t s dd v p :
  startswith (p +:+ "/") dd = false ->
  is_dir t p = false -> is_dir (delete s (<[dd := v]> t)) p = false.
Proof.
  intros Hdd Hd. apply not_true_iff_false. intros H.
  apply is_dir_spec in H as (k & Hk & Hs). rewrite lookup_moved in Hk.
  apply not_true_iff_false in Hd. apply Hd, is_dir_spec. exists k.
  split; [|exact Hs].
  destruct (decide (s = k)); [by destruct Hk|].
  destruct (decide (dd = k)); [congruence|exact Hk].
Qed.

(** The turn of [e] leaves the turn of another entry as it was. *)
Lemma after_turn t e e' v :
  apart e e' = true ->
  let t1 := delete (src_of e.1) (<[dst_of e.1 e.2 := v]> t) in
  t1 !! src_of e'.1 = t !! src_of e'.1 /\
  exists_in t1 (src_of e'.1) = exists_in t (src_of e'.1) /\
  (can_move t e' = true -> can_move t1 e' = true).
Proof.
  intros H t1. unfold apart in H. cbv zeta in H.
  do 7 (apply andb_true_iff in H as [H ?]).
  repeat match goal with
         | H : negb _ = true |- _ => apply negb_true_iff in H
         end.
  repeat match goal with
         | H : String.eqb _ _ = false |- _ => apply String.eqb_neq in H
         end.
  assert (t1 !! src_of e'.1 = t !! src_of e'.1) as Hsrc.
  { unfold t1. rewrite lookup_moved, !decide_False by congruence.
    reflexivity. }
  assert (exists_in t1 (src_of e'.1) = exists_in t (src_of e'.1)) as Hex.
  { apply eq_true_iff_eq. rewrite !exists_in_spec, Hsrc.
    split; (intros [Hs|(k & Hk & Hs)]; [by left|right; exists k]);
      (split; [|exact Hs]).
    - unfold t1 in Hk. rewrite lookup_moved in Hk.
      destruct (decide (src_of e.1 = k)); [by destruct Hk|].
      destruct (decide (dst_of e.1 e.2 = k)); [congruence|exact Hk].
    - unfold t1. rewrite lookup_moved, !decide_False; [exact Hk|..];
        congruence. }
  split; [exact Hsrc|]. split; [exact Hex|].
  unfold can_move. rewrite Hex, Hsrc. subst t1.
  destruct (exists_in t (src_of e'.1)); [|reflexivity]. cbn [negb orb].
  intros Hc. apply andb_true_iff in Hc as [Hc Hc3].
  apply andb_true_iff in Hc as [Hc1 Hc2]. rewrite Hc1. cbn [andb].
  apply negb_true_iff in Hc3.
  rewrite (is_dir_moved t _ _ v _) by assumption. rewrite andb_true_r.
  apply negb_true_iff, bool_decide_eq_false in Hc2.
  apply negb_true_iff, bool_decide_eq_false. intros Hk. apply Hc2.
  rewrite lookup_moved in Hk.
  destruct (decide (src_of e.1 = _)); [by destruct Hk|].
  rewrite decide_False in Hk by congruence. exact Hk.
Qed.

(** The loop on a disk that stores what is written. *)
Lemma move_loop l t :
  (forall e, e ∈ l -> e ∈ MoveAndUpdate.file_mapping) -> NoDup l ->
  (forall e, e ∈ l -> can_move t e = true) ->
  exists t', for_each l (move_one faithful) t = (Ok (), t') /\
    (forall e, e ∈ l -> exists_in t (src_of e.1) = true ->
       t' !! src_of e.1 = None /\
       t' !! dst_of e.1 e.2 = MoveAndUpdate.rewrite e.2 <$> t !! src_of e.1) /\
    (forall k, (forall e, e ∈ l -> exists_in t (src_of e.1) = true ->
                  k <> src_of e.1 /\ k <> dst_of e.1 e.2) ->
       t' !! k = t !! k).
Proof.
  revert t. induction l as [|e l IH]; intros t Hl Hnd Hc.
  - exists t. split; [reflexivity|]. split; [intros e He|reflexivity].
    by apply elem_of_nil in He.
  - apply NoDup_cons in Hnd as [He Hnd].
    assert (e ∈ MoveAndUpdate.file_mapping) as Hm by (apply Hl; by left).
    assert (forall e', e' ∈ l -> e' ∈ MoveAndUpdate.file_mapping) as Hl'
      by (intros e' He'; apply Hl; by right).
    assert (forall e', e' ∈ l -> apart e e' = true /\ apart e' e = true)
      as Hap.
    { intros e' He'. split; apply apart_spec; auto; intros ->; auto. }
    pose proof (move_one_faithful t e Hm (Hc e ltac:(by left))) as Hstep.
    cbn [for_each]. unfold bind.
    destruct (exists_in t (src_of e.1)) eqn:Hex.
    + destruct Hstep as (c & Hs & ->).
      set (t1 := delete (src_of e.1)
                   (<[dst_of e.1 e.2 := MoveAndUpdate.rewrite e.2 c]> t)).
      destruct (IH t1) as (t' & Hrun & Hres & Hframe);
        [exact Hl'|exact Hnd| |].
      { intros e' He'. destruct (Hap e' He') as [Ha _].
        apply (after_turn t e e' _ Ha). apply Hc. by right. }
      assert (forall e', e' ∈ l ->
                src_of e.1 <> src_of e'.1 /\ src_of e.1 <> dst_of e'.1 e'.2 /\
                dst_of e.1 e.2 <> src_of e'.1 /\
                dst_of e.1 e.2 <> dst_of e'.1 e'.2) as Hne.
      { intros e' He'. destruct (Hap e' He') as [Ha Ha'].
        unfold apart in Ha, Ha'.
        do 7 (apply andb_true_iff in Ha as [Ha ?]).
        do 7 (apply andb_true_iff in Ha' as [Ha' ?]).
        repeat match goal with
               | H : negb _ = true |- _ => apply negb_true_iff in H
               end.
        repeat match goal with
               | H : String.eqb _ _ = false |- _ => apply String.eqb_neq in H
               end.
        repeat split; congruence. }
      exists t'. split; [exact Hrun|]. split.
      * intros e' He' Hex'. apply elem_of_cons in He' as [->|He'].
        { rewrite !Hframe.
          - unfold t1. rewrite !lookup_moved, decide_True by reflexivity.
            rewrite decide_False, decide_True, Hs; [done|done|].
            destruct (mapping_dst _ Hm) as [_ Hne']. exact Hne'.
          - intros e' He' _. destruct (Hne e' He') as (_ & _ & ? & ?). done.
          - intros e' He' _. destruct (Hne e' He') as (? & ? & _). done. }
        destruct (Hap e' He') as [Ha _].
        destruct (after_turn t e e' (MoveAndUpdate.rewrite e.2 c) Ha)
          as (Hsrc & Hex1 & _). fold t1 in Hsrc, Hex1.
        rewrite <- Hsrc. apply Hres; [exact He'|]. by rewrite Hex1.
      * intros k Hk. rewrite Hframe.
        { destruct (Hk e ltac:(by left) Hex) as [H1 H2].
          unfold t1. rewrite lookup_moved, !decide_False by congruence.
          reflexivity. }
        intros e' He' Hex'. apply Hk; [by right|].
        destruct (Hap e' He') as [Ha _].
        destruct (after_turn t e e' (MoveAndUpdate.rewrite e.2 c) Ha)
          as (_ & Hex1 & _). fold t1 in Hex1. by rewrite <- Hex1.
    + rewrite Hstep.
      destruct (IH t) as (t' & Hrun & Hres & Hframe);
        [exact Hl'|exact Hnd| |].
      { intros e' He'. apply Hc. by right. }
      exists t'. split; [exact Hrun|]. split.
      * intros e' He' Hex'. apply elem_of_cons in He' as [->|He'];
          [congruence|]. by apply Hres.
      * intros k Hk. apply Hframe. intros e' He'. apply Hk. by right.
Qed.

End MoveRuns.

Section MoveTheorems.
Import Os Script Moves.
Implicit Types (t : tree) (p q : string) (d : disk) (e : string * string).

Lemma movable_spec t e :
  movable t = true -> e ∈ MoveAndUpdate.file_mapping -> can_move t e = true.
Proof.
  unfold movable. rewrite forallb_forall. intros H He.
  by apply H, list_elem_of_In.
Qed.



(** Where no source exists the loop does nothing, on any disk. *)
Lemma move_loop_idle d l t :
  (forall e, e ∈ l -> exists_in t (src_of e.1) = false) ->
  for_each l (move_one d) t = (Ok (), t).
Proof.
  induction l as [|e l IH]; intros H; [reflexivity|].
  cbn [for_each]. unfold bind.
  assert (move_one d e t = (Ok (), t)) as ->.
  { destruct e as [filename pkg]. unfold move_one, bind, path_exists.
    pose proof (H (filename, pkg) ltac:(by left)) as Hex.
    cbn [fst] in Hex. rewrite Hex. reflexivity. }
  apply IH. intros e' He'. apply H. by right.
Qed.

(** X16: after a run of move_and_update.py that went through on a disk
    that stores what is written, a second run finds no source, finishes
    without an exception and leaves the tree as the first run left it,
    whatever the disk does then. *)
Theorem move_and_update_again_moves_nothing d t :
  well_formed t = true -> movable t = true ->
  move_and_update d (final (move_and_update faithful) t) =
  (Ok (), final (move_and_update faithful) t).
Proof.
  intros Hwf Hm.
  destruct (move_loop MoveAndUpdate.file_mapping t)
    as (t' & Hrun & Hres & Hframe);
    [auto|apply NoDup_mapping|intros e; apply movable_spec, Hm|].
  unfold final, move_and_update. rewrite Hrun. cbn [snd].
  apply move_loop_idle. intros e He.
  assert (forall e', e' ∈ MoveAndUpdate.file_mapping -> e' <> e ->
            apart e' e = true /\ apart e e' = true) as Hap.
  { intros e' He' Hne. split; apply apart_spec; auto. }
  assert (t' !! src_of e.1 = None) as Hsrc.
  { destruct (exists_in t (src_of e.1)) eqn:Hex; [by apply Hres|].
    rewrite Hframe.
    - apply eq_None_not_Some. intros Hs.
      apply not_true_iff_false in Hex. apply Hex, exists_in_spec. by left.
    - intros e' He' Hex'. assert (e' <> e) as Hne by congruence.
      destruct (Hap e' He' Hne) as [Ha _]. unfold apart in Ha.
      do 7 (apply andb_true_iff in Ha as [Ha ?]).
      repeat match goal with
             | H : negb _ = true |- _ => apply negb_true_iff in H
             end.
      repeat match goal with
             | H : String.eqb _ _ = false |- _ => apply String.eqb_neq in H
             end.
      split; congruence. }
  apply not_true_iff_false. intros Hex. apply exists_in_spec in Hex.
  destruct Hex as [Hs|(k & Hk & Hpre)]; [rewrite Hsrc in Hs; by destruct Hs|].
  assert (t' !! k = t !! k) as Hkeep.
  { apply Hframe. intros e' He' Hex'.
    destruct (decide (e' = e)) as [->|Hne].
    - destruct (mapping_dst e He) as [_ Hsd].
      destruct (mapping_src_dst e e He He) as [_ Hpd].
      split; intros ->.
      + clear -Hpre. exfalso. revert Hpre.
        generalize (src_of e.1). intros s. induction s as [|c s IH].
        * discriminate.
        * rewrite app_cons. cbn [startswith]. rewrite Ascii.eqb_refl.
          exact IH.
      + congruence.
    - destruct (Hap e' He' Hne) as [Ha _]. unfold apart in Ha.
      do 7 (apply andb_true_iff in Ha as [Ha ?]).
      repeat match goal with
             | H : negb _ = true |- _ => apply negb_true_iff in H
             end.
      split; intros ->; congruence. }
  rewrite Hkeep in Hk.
  assert (is_dir t (src_of e.1) = true) as Hd
    by (apply is_dir_spec; eauto).
  assert (exists_in t (src_of e.1) = true) as Hex
    by (apply exists_in_spec; right; eauto).
  destruct (can_move_spec t e (movable_spec t e Hm He) Hex) as (Hs & _).
  rewrite (well_formed_file t _ Hwf Hs) in Hd. discriminate.
Qed.

Lemma move_and_update_again_moves_nothing_witness :
  well_formed Sample.with_root = true /\
  movable Sample.with_root = true /\
  move_and_update (Sample.failing 3)
    (final (move_and_update faithful) Sample.with_root) =
  (Ok (), final (move_and_update faithful) Sample.with_root).
Proof.
  split; [vm_compute; reflexivity|]. split; [vm_compute; reflexivity|].
  apply (move_and_update_again_moves_nothing (Sample.failing 3)
           Sample.with_root); vm_compute; reflexivity.
Defined.

End MoveTheorems.

(** ** fix_packages.py, a second run *)

Section FixPackagesAgain.
Import Os Script Walk.

Lemma package_names :
  forallb (fun e : string * string =>
             Text.is_name e.1 &&
             negb (starts_inside "import " ("package " +:+ e.1)))
    FixPackages.packages = true.
Proof. vm_compute. reflexivity. Qed.

(** X19: a second run of fix_packages.py, after a run that went through on
    a disk that stores what is written, finishes without an exception and
    leaves every file as the first run left it. *)
Theorem fix_packages_again_changes_nothing t :
  ready go_file FixPackages.packages.*2 t = true ->
  fix_packages faithful (final (fix_packages faithful) t) =
  (Ok (), final (fix_packages faithful) t).
Proof.
  intros Hr.
  destruct (fix_packages_run t (ready_spec _ _ _ Hr)) as (t1 & Hrun1 & H1).
  assert (forall k, is_Some (t1 !! k) <-> is_Some (t !! k)) as Hsame.
  { intros k. rewrite H1. destruct (find _ _); [|reflexivity].
    apply fmap_is_Some. }
  destruct (fix_packages_run t1) as (t2 & Hrun2 & H2).
  { intros dir Hd. apply (ready_here_same_files _ _ t); [exact Hsame|].
    by apply (ready_spec _ _ _ Hr). }
  unfold final. rewrite Hrun1. cbn [snd]. rewrite Hrun2. f_equal.
  apply map_eq. intros k. rewrite H2, H1.
  destruct (find _ _) as [e|] eqn:Ef; [|reflexivity].
  apply find_some in Ef as [He _].
  pose proof package_names as Hp. rewrite forallb_forall in Hp.
  apply Hp, andb_true_iff in He as [Hn Hi]. apply negb_true_iff in Hi.
  destruct (t !! k) as [c|]; [|reflexivity]. cbn [fmap option_fmap option_map].
  f_equal. by apply fix_packages_rewrite_twice.
Qed.

Lemma fix_packages_again_changes_nothing_witness :
  ready go_file FixPackages.packages.*2 Sample.licensed_in_drive = true /\
  fix_packages faithful
    (final (fix_packages faithful) Sample.licensed_in_drive) =
  (Ok (), final (fix_packages faithful) Sample.licensed_in_drive).
Proof.
  split; [vm_compute; reflexivity|].
  apply (fix_packages_again_changes_nothing Sample.licensed_in_drive).
  vm_compute. reflexivity.
Defined.

End FixPackagesAgain.
